(** * Promotional e-mail generator: a shallow embedding of [app.py]

    The development follows the script top to bottom: the Python string
    primitives the script relies on, the part of [urllib.parse] reached by
    [normalize_url], the BeautifulSoup tree operations used by
    [scrape_website_text], the prompt composer and completion client, and the
    body of the [if generate:] block.

    Modelling conventions.
    - A Python [str] is a [string]; a character is its code point, so the
      strings covered are those over code points 0..255.
    - A call that may raise returns a [result]; [Raise e] is the exception
      escaping the call.
    - [len] is [String.length]; an index returned by [str.find] is an
      [option nat], with [None] for Python's [-1]. *)

From Stdlib Require Import String Ascii List Bool Arith NArith Lia.
Import ListNotations.

#[local] Set Warnings "-abstract-large-number".
#[local] Open Scope string_scope.
#[local] Open Scope bool_scope.

(** ** Exceptions and results *)

Inductive exn : Type :=
  | ValueError
  | RequestException
  | HTTPError
  | OpenAIError
  | OtherException (what : string).

Inductive result (A : Type) : Type :=
  | Ok (a : A)
  | Raise (e : exn).

Arguments Ok {A} a.
Arguments Raise {A} e.

Definition bind {A B : Type} (r : result A) (k : A -> result B) : result B :=
  match r with
  | Ok a => k a
  | Raise e => Raise e
  end.

Notation "x <- r ;; k" := (bind r (fun x => k))
  (at level 61, r at next level, right associativity).

Notation "' pat <- r ;; k" :=
  (bind r (fun x => match x with pat => k end))
  (at level 61, pat pattern, r at next level, right associativity).

(** ** Python string primitives *)

Module Py.

Definition ord (c : ascii) : N := N_of_ascii c.

Definition TAB : ascii := ascii_of_nat 9.
Definition LF : ascii := ascii_of_nat 10.
Definition CR : ascii := ascii_of_nat 13.

(** The one-character string [chr 10], written ["\n"] in the script. *)
Definition nl : string := String LF EmptyString.

Definition between (lo hi n : N) : bool := (lo <=? n)%N && (n <=? hi)%N.

(** [str.isspace] on one character (code points below 256). *)
Definition isspace (c : ascii) : bool :=
  between 9 13 (ord c) || between 28 32 (ord c)
  || (ord c =? 133)%N || (ord c =? 160)%N.

(** The characters at which [str.splitlines] breaks a line. *)
Definition is_linebreak (c : ascii) : bool :=
  between 10 13 (ord c) || between 28 30 (ord c) || (ord c =? 133)%N.

Definition isascii (c : ascii) : bool := (ord c <? 128)%N.

Definition is_upper (c : ascii) : bool := between 65 90 (ord c).
Definition is_lower (c : ascii) : bool := between 97 122 (ord c).
Definition is_digit (c : ascii) : bool := between 48 57 (ord c).

(** [c.isascii() and c.isalpha()] *)
Definition is_ascii_alpha (c : ascii) : bool := is_upper c || is_lower c.

Definition lower_char (c : ascii) : ascii :=
  if is_upper c then ascii_of_N (ord c + 32) else c.

(** [s.lower()], for the ASCII letters; the script and [urlsplit] lower
    nothing else. *)
Fixpoint lower (s : string) : string :=
  match s with
  | EmptyString => EmptyString
  | String c s' => String (lower_char c) (lower s')
  end.

(** [x or d] for a [str] x: the empty string is falsy. *)
Definition or_else (x d : string) : string :=
  match x with
  | EmptyString => d
  | _ => x
  end.

(** [not x] for a [str] x. *)
Definition is_empty (x : string) : bool :=
  match x with
  | EmptyString => true
  | _ => false
  end.

Fixpoint lstrip_with (p : ascii -> bool) (s : string) : string :=
  match s with
  | EmptyString => EmptyString
  | String c s' => if p c then lstrip_with p s' else s
  end.

Fixpoint rstrip_with (p : ascii -> bool) (s : string) : string :=
  match s with
  | EmptyString => EmptyString
  | String c s' =>
      match rstrip_with p s' with
      | EmptyString => if p c then EmptyString else String c EmptyString
      | r => String c r
      end
  end.

(** [s.strip()] *)
Definition strip (s : string) : string :=
  rstrip_with isspace (lstrip_with isspace s).

(** [s[:n]] and [s[n:]] for [n >= 0]. *)
Fixpoint take (n : nat) (s : string) : string :=
  match n, s with
  | S n', String c s' => String c (take n' s')
  | _, _ => EmptyString
  end.

Fixpoint drop (n : nat) (s : string) : string :=
  match n, s with
  | S n', String _ s' => drop n' s'
  | _, _ => s
  end.

(** [c in s] for a one-character [c]. *)
Fixpoint contains (c : ascii) (s : string) : bool :=
  match s with
  | EmptyString => false
  | String d s' => Ascii.eqb c d || contains c s'
  end.

(** [s.find(c)] for a one-character [c]. *)
Fixpoint find (c : ascii) (s : string) : option nat :=
  match s with
  | EmptyString => None
  | String d s' =>
      if Ascii.eqb c d then Some 0
      else match find c s' with
           | Some i => Some (S i)
           | None => None
           end
  end.

(** [s.find(c, start)] *)
Definition find_from (c : ascii) (start : nat) (s : string) : option nat :=
  match find c (drop start s) with
  | Some i => Some (start + i)
  | None => None
  end.

(** [s.rfind(c)] *)
Fixpoint rfind (c : ascii) (s : string) : option nat :=
  match s with
  | EmptyString => None
  | String d s' =>
      match rfind c s' with
      | Some i => Some (S i)
      | None => if Ascii.eqb c d then Some 0 else None
      end
  end.

(** [s.replace(c, "")] for a one-character [c]. *)
Fixpoint remove (c : ascii) (s : string) : string :=
  match s with
  | EmptyString => EmptyString
  | String d s' => if Ascii.eqb c d then remove c s' else String d (remove c s')
  end.

Fixpoint startswith (p s : string) : bool :=
  match p, s with
  | EmptyString, _ => true
  | String a p', String b s' => Ascii.eqb a b && startswith p' s'
  | String _ _, EmptyString => false
  end.

Fixpoint forallb (p : ascii -> bool) (s : string) : bool :=
  match s with
  | EmptyString => true
  | String c s' => p c && forallb p s'
  end.

(** [s.partition(c)]: text before the first [c], whether [c] was found, and
    the text after it. *)
Definition partition (c : ascii) (s : string) : string * bool * string :=
  match find c s with
  | Some i => (take i s, true, drop (S i) s)
  | None => (s, false, EmptyString)
  end.

(** [s.rpartition(c)[2]]: the text after the last [c], or all of [s]. *)
Definition rpartition_tail (c : ascii) (s : string) : string :=
  match rfind c s with
  | Some i => drop (S i) s
  | None => s
  end.

(** [p in s] for a string [p]. *)
Fixpoint contains_str (p s : string) : bool :=
  startswith p s
  || match s with
     | EmptyString => false
     | String _ s' => contains_str p s'
     end.

(** Whether the first, or the last, character is white space. *)
Definition starts_with_space (s : string) : bool :=
  match s with
  | EmptyString => false
  | String c _ => isspace c
  end.

Fixpoint ends_with_space (s : string) : bool :=
  match s with
  | EmptyString => false
  | String c EmptyString => isspace c
  | String _ s' => ends_with_space s'
  end.

(** [sep.join(parts)] *)
Fixpoint join (sep : string) (parts : list string) : string :=
  match parts with
  | [] => EmptyString
  | [x] => x
  | x :: rest => x ++ sep ++ join sep rest
  end.

(** [s.splitlines()]: [cur] is the line being read. A line break ends the
    current line; ["\r\n"] counts as one break; the text after the last break
    is a line only when it is non-empty. *)
Fixpoint splitlines_from (cur : string) (s : string) : list string :=
  match s with
  | EmptyString =>
      match cur with
      | EmptyString => []
      | _ => [cur]
      end
  | String c s' =>
      if is_linebreak c then
        cur :: match s' with
               | String d s'' =>
                   if Ascii.eqb c CR && Ascii.eqb d LF
                   then splitlines_from EmptyString s''
                   else splitlines_from EmptyString s'
               | EmptyString => splitlines_from EmptyString s'
               end
      else splitlines_from (cur ++ String c EmptyString) s'
  end.

Definition splitlines (s : string) : list string :=
  splitlines_from EmptyString s.

(** [s.lower()] on code points below 256: the ASCII capitals and the
    capitals 192 to 222, the multiplication sign 215 apart, move up by 32. *)
Definition str_lower_char (c : ascii) : ascii :=
  if is_upper c || (between 192 222 (ord c) && negb (ord c =? 215)%N)
  then ascii_of_N (ord c + 32)
  else c.

Fixpoint str_lower (s : string) : string :=
  match s with
  | EmptyString => EmptyString
  | String c s' => String (str_lower_char c) (str_lower s')
  end.

(** [run] line feeds. *)
Definition line_feeds (run : nat) : string :=
  Nat.iter run (String LF) EmptyString.

End Py.

(** ** [urllib.parse]: the part reached by [urlparse(url)]

    The functions follow the CPython 3.11 sources, statement by statement. *)

Module Urllib.
Import Py.

Record SplitResult : Type := mkSplit {
  s_scheme : string;
  s_netloc : string;
  s_path : string;
  s_query : string;
  s_fragment : string
}.

Record ParseResult : Type := mkParse {
  scheme : string;
  netloc : string;
  path : string;
  params : string;
  query : string;
  fragment : string
}.

Definition uses_params : list string :=
  [EmptyString; "ftp"; "hdl"; "prospero"; "http"; "imap"; "https"; "shttp";
   "rtsp"; "rtspu"; "sip"; "sips"; "mms"; "sftp"; "tel"].

Definition scheme_chars (c : ascii) : bool :=
  is_lower c || is_upper c || is_digit c
  || Ascii.eqb c "+" || Ascii.eqb c "-" || Ascii.eqb c ".".

(** [_WHATWG_C0_CONTROL_OR_SPACE]: code points 0 to 32. *)
Definition c0_control_or_space (c : ascii) : bool := (ord c <=? 32)%N.

Definition opt_min (delim : nat) (w : option nat) : nat :=
  match w with
  | Some i => Nat.min delim i
  | None => delim
  end.

(** [_splitnetloc(url, start)] *)
Definition _splitnetloc (url : string) (start : nat) : string * string :=
  let delim := String.length url in
  let delim := opt_min delim (find_from "/" start url) in
  let delim := opt_min delim (find_from "?" start url) in
  let delim := opt_min delim (find_from "#" start url) in
  (take (delim - start) (drop start url), drop delim url).

(** [_splitparams(url)] *)
Definition _splitparams (url : string) : string * string :=
  let cut (i : option nat) :=
    match i with
    | Some i => (take i url, drop (S i) url)
    | None => (take (String.length url - 1) url, url)
    end in
  if contains "/" url then
    match find_from ";" (match rfind "/" url with Some j => j | None => 0 end) url with
    | None => (url, EmptyString)
    | Some i => cut (Some i)
    end
  else cut (find ";" url).

(** [unicodedata.normalize('NFKC', s)] on code points below 256: the only
    characters with a compatibility mapping are listed; every other one is
    its own normal form. The result leaves the range, hence code points.
    Above the range a character can normalize to a delimiter (U+2100 gives
    [a/c]), which is what [_checknetloc] raises on; such strings are outside
    the ones modelled here. *)
Definition nfkc_char (c : ascii) : list N :=
  match ord c with
  | 160 => [32]
  | 168 => [32; 776]
  | 170 => [97]
  | 175 => [32; 772]
  | 178 => [50]
  | 179 => [51]
  | 180 => [32; 769]
  | 181 => [956]
  | 184 => [32; 807]
  | 185 => [49]
  | 186 => [111]
  | 188 => [49; 8260; 52]
  | 189 => [49; 8260; 50]
  | 190 => [51; 8260; 52]
  | n => [n]
  end%N.

Fixpoint code_points (s : string) : list N :=
  match s with
  | EmptyString => []
  | String c s' => ord c :: code_points s'
  end.

Fixpoint nfkc (s : string) : list N :=
  match s with
  | EmptyString => []
  | String c s' => nfkc_char c ++ nfkc s'
  end.

Fixpoint code_points_eqb (a b : list N) : bool :=
  match a, b with
  | [], [] => true
  | x :: a', y :: b' => (x =? y)%N && code_points_eqb a' b'
  | _, _ => false
  end.

(** [_checknetloc(netloc)] *)
Definition _checknetloc (netloc : string) : result unit :=
  if is_empty netloc || forallb isascii netloc then Ok tt
  else
    let n := remove "?" (remove "#" (remove ":" (remove "@" netloc))) in
    let netloc2 := nfkc n in
    if code_points_eqb (code_points n) netloc2 then Ok tt
    else if existsb (fun c => existsb (N.eqb (ord c)) netloc2)
                    ["/"; "?"; "#"; "@"; ":"]%char
         then Raise ValueError
         else Ok tt.

Definition is_hex (c : ascii) : bool :=
  is_digit c || between 65 70 (ord c) || between 97 102 (ord c).

(** [re.match(r"\Av[a-fA-F0-9]+\..+\Z", hostname)]: the hexadecimal run
    cannot give back a character, since the next one must be a dot. *)
Definition match_ipvfuture (hostname : string) : bool :=
  match hostname with
  | String "v" r =>
      match r with
      | String h _ => is_hex h
      | EmptyString => false
      end
      && match lstrip_with is_hex r with
         | String "." tail => negb (is_empty tail) && negb (contains LF tail)
         | _ => false
         end
  | _ => false
  end.

(** The scheme test of [urlsplit]: with [i = url.find(':')], when [i > 0],
    the first character is an ASCII letter and [url[:i]] is made of scheme
    characters, the scheme is [url[:i].lower()] and the rest [url[i+1:]];
    otherwise the scheme stays empty. *)
Definition split_scheme (url : string) : string * string :=
  match find ":" url, url with
  | Some (S i'), String c0 _ =>
      if is_ascii_alpha c0 && forallb scheme_chars (take (S i') url)
      then (lower (take (S i') url), drop (S (S i')) url)
      else (EmptyString, url)
  | _, _ => (EmptyString, url)
  end.

(** [ParseResult._hostinfo[0]]: the host part of the [netloc], after the
    user information and before the port. *)
Definition _hostinfo_hostname (netloc : string) : string :=
  let hostinfo := rpartition_tail "@" netloc in
  let '(_, have_open_br, bracketed) := partition "[" hostinfo in
  if have_open_br then
    let '(hostname, _, _) := partition "]" bracketed in hostname
  else
    let '(hostname, _, _) := partition ":" hostinfo in hostname.

(** [ParseResult.hostname]; Python's [None] is [None]. *)
Definition hostname (parsed : ParseResult) : option string :=
  let hostname := _hostinfo_hostname (netloc parsed) in
  if is_empty hostname then None
  else
    let '(hostname, percent, zone) := partition "%" hostname in
    Some (str_lower hostname
          ++ (if percent : bool then "%" else EmptyString) ++ zone).

Inductive ip_version : Type := IPv4Address | IPv6Address.

Section Parse.

(** [ipaddress.ip_address]: the address family of a textual address, or the
    [ValueError] it raises. Kept abstract: no statement below depends on
    which addresses it accepts. *)
Variable ip_address : string -> result ip_version.

(** [_check_bracketed_host(hostname)] *)
Definition _check_bracketed_host (hostname : string) : result unit :=
  if startswith "v" hostname then
    if match_ipvfuture hostname then Ok tt else Raise ValueError
  else
    ip <- ip_address hostname ;;
    match ip with
    | IPv4Address => Raise ValueError
    | IPv6Address => Ok tt
    end.

(** [_check_bracketed_netloc(netloc)] *)
Definition _check_bracketed_netloc (netloc : string) : result unit :=
  let hostname_and_port := rpartition_tail "@" netloc in
  let '(before_bracket, have_open_br, bracketed) :=
    partition "[" hostname_and_port in
  if have_open_br then
    if negb (is_empty before_bracket) then Raise ValueError
    else
      let '(hostname, _, port) := partition "]" bracketed in
      if negb (is_empty port) && negb (startswith ":" port)
      then Raise ValueError
      else _check_bracketed_host hostname
  else
    let '(hostname, _, _) := partition ":" hostname_and_port in
    _check_bracketed_host hostname.

(** [urlsplit(url)] with the default [scheme=''] and [allow_fragments=True]. *)
Definition urlsplit (url : string) : result SplitResult :=
  let url := lstrip_with c0_control_or_space url in
  let url := remove LF (remove CR (remove TAB url)) in
  let '(scheme, url) := split_scheme url in
  '(netloc, url) <-
    (if String.eqb (take 2 url) "//" then
       let '(netloc, url) := _splitnetloc url 2 in
       if (contains "[" netloc && negb (contains "]" netloc))
          || (contains "]" netloc && negb (contains "[" netloc))
       then Raise ValueError
       else
         _ <- (if contains "[" netloc && contains "]" netloc
               then _check_bracketed_netloc netloc else Ok tt) ;;
         Ok (netloc, url)
     else Ok (EmptyString, url)) ;;
  let '(url, fragment) :=
    if contains "#" url
    then let '(a, _, b) := partition "#" url in (a, b)
    else (url, EmptyString) in
  let '(url, query) :=
    if contains "?" url
    then let '(a, _, b) := partition "?" url in (a, b)
    else (url, EmptyString) in
  _ <- _checknetloc netloc ;;
  Ok (mkSplit scheme netloc url query fragment).

(** [urlparse(url)] *)
Definition urlparse (url : string) : result ParseResult :=
  sp <- urlsplit url ;;
  let url := s_path sp in
  let '(url, params) :=
    if existsb (String.eqb (s_scheme sp)) uses_params && contains ";" url
    then _splitparams url
    else (url, EmptyString) in
  Ok (mkParse (s_scheme sp) (s_netloc sp) url params (s_query sp) (s_fragment sp)).

End Parse.

End Urllib.

(** ** The script: URL normalizer *)

Import Py.

(** One pattern character under [re.IGNORECASE]: the pattern letters are
    lower case, so a character matches when its lower-case form is the
    pattern character. *)
Fixpoint imatch (pattern s : string) : bool :=
  match pattern, s with
  | EmptyString, _ => true
  | String p pattern', String c s' =>
      Ascii.eqb (lower_char c) p && imatch pattern' s'
  | String _ _, EmptyString => false
  end.

(** [re.match(r"^https?://", url, flags=re.IGNORECASE)] as a truth value. *)
Definition re_match_scheme (url : string) : bool :=
  imatch "https://" url || imatch "http://" url.

(** Beginning with [http://] or [https://], letter case ignored. *)
Definition has_scheme (url : string) : bool :=
  startswith "http://" (lower url) || startswith "https://" (lower url).

Section Normalizer.

Variable ip_address : string -> result Urllib.ip_version.

Definition normalize_url (url : string) : result string :=
  let url := strip (or_else url EmptyString) in
  if is_empty url then Ok EmptyString
  else
    let url := if negb (re_match_scheme url) then "https://" ++ url else url in
    parsed <- Urllib.urlparse ip_address url ;;
    if is_empty (Urllib.netloc parsed) then Ok EmptyString
    else Ok url.

End Normalizer.

(** ** BeautifulSoup: the parse tree and the operations the script calls *)

Module Bs4.

(** The classes of string a parse tree holds. *)
Inductive string_type : Type :=
  | NavigableString
  | CData
  | Comment
  | Declaration
  | Doctype
  | ProcessingInstruction
  | Script
  | Stylesheet
  | TemplateString
  | RubyTextString
  | RubyParenthesisString.

(** A page element. A tag is a Python object: [id] stands for its identity,
    which is what [decompose] acts on. Attributes play no part in text
    extraction and are left out. *)
#[local] Unset Elimination Schemes.
Inductive node : Type :=
  | Str (ty : string_type) (text : string)
  | Tag (id : nat) (name : string) (contents : list node).
#[local] Set Elimination Schemes.

(** Induction over a tree, with the property available for every child. *)
Fixpoint node_forall_ind (P : node -> Prop)
    (HStr : forall ty s, P (Str ty s))
    (HTag : forall i nm cs, Forall P cs -> P (Tag i nm cs))
    (n : node) : P n :=
  match n with
  | Str ty s => HStr ty s
  | Tag i nm cs =>
      HTag i nm cs
        ((fix all (l : list node) : Forall P l :=
            match l with
            | [] => Forall_nil P
            | c :: l' => Forall_cons c (node_forall_ind P HStr HTag c) (all l')
            end) cs)
  end.

(** [DEFAULT_INTERESTING_STRING_TYPES = (NavigableString, CData)]; the
    membership test is on the exact class. *)
Definition interesting (ty : string_type) : bool :=
  match ty with
  | NavigableString | CData => true
  | _ => false
  end.

Definition contents_of (n : node) : list node :=
  match n with
  | Tag _ _ cs => cs
  | Str _ _ => []
  end.

(** A node followed by everything below it, in document order. *)
Fixpoint subtree (n : node) : list node :=
  n :: match n with
       | Tag _ _ cs => flat_map subtree cs
       | Str _ _ => []
       end.

(** [tag.descendants] *)
Definition descendants (n : node) : list node :=
  flat_map subtree (contents_of n).

Definition is_named (names : list string) (n : node) : bool :=
  match n with
  | Tag _ nm _ => existsb (String.eqb nm) names
  | Str _ _ => false
  end.

(** [tag.find_all(names)], also written [tag(names)]. *)
Definition find_all (names : list string) (root : node) : list node :=
  filter (is_named names) (descendants root).

(** [tag.find(name)], also written [tag.name] for [soup.body]. *)
Definition find (name : string) (root : node) : option node :=
  match find_all [name] root with
  | [] => None
  | r :: _ => Some r
  end.

(** Taking the tag of identity [i] out of a subtree. *)
Fixpoint detach (i : nat) (n : node) : list node :=
  match n with
  | Str _ _ => [n]
  | Tag j nm cs =>
      if Nat.eqb i j then [] else [Tag j nm (flat_map (detach i) cs)]
  end.

(** [tag.decompose()], seen from the tree [root] that holds [tag]: the tag
    leaves its parent together with everything below it. A tag that is no
    longer in the tree (it went with an ancestor) leaves it unchanged. *)
Definition decompose (tag root : node) : node :=
  match tag, root with
  | Tag i _ _, Tag r nm cs => Tag r nm (flat_map (detach i) cs)
  | _, _ => root
  end.

(** [tag._all_strings()] with the default types. *)
Definition _all_strings (n : node) : list string :=
  flat_map (fun d => match d with
                     | Str ty s => if interesting ty then [s] else []
                     | Tag _ _ _ => []
                     end) (descendants n).

(** [tag.get_text(separator=sep)] *)
Definition get_text (sep : string) (n : node) : string :=
  Py.join sep (_all_strings n).

Fixpoint tag_ids (n : node) : list nat :=
  match n with
  | Str _ _ => []
  | Tag i _ cs => i :: flat_map tag_ids cs
  end.

(** Distinct tags of a tree are distinct objects. *)
Definition unique_ids (root : node) : Prop :=
  NoDup (flat_map tag_ids (contents_of root)).

(** The reading of the removal loop used in the statements below: the tree
    with every tag named in [names] erased together with what it holds. *)
Fixpoint erase (names : list string) (n : node) : list node :=
  match n with
  | Str _ _ => [n]
  | Tag i nm cs =>
      if existsb (String.eqb nm) names then []
      else [Tag i nm (flat_map (erase names) cs)]
  end.

Definition erase_below (names : list string) (root : node) : node :=
  match root with
  | Tag r nm cs => Tag r nm (flat_map (erase names) cs)
  | Str _ _ => root
  end.

(** The interesting strings at or below [n] that have no ancestor named in
    [names], in document order. *)
Fixpoint outside_strings (names : list string) (n : node) : list string :=
  match n with
  | Str ty s => if interesting ty then [s] else []
  | Tag _ nm cs =>
      if existsb (String.eqb nm) names then []
      else flat_map (outside_strings names) cs
  end.

(** *** Notions used in the proofs about trees *)

(** The identities of a list of tags, and the strings of a list of nodes. *)
Definition ids_of (l : list node) : list nat :=
  flat_map (fun t => match t with Tag i _ _ => [i] | Str _ _ => [] end) l.

Definition strings_of (l : list node) : list string :=
  flat_map (fun d => match d with
                     | Str ty s => if interesting ty then [s] else []
                     | Tag _ _ _ => []
                     end) l.

(** The removal loop on the children of the root, by identities. *)
Definition detach_each (ids : list nat) (f : list node) : list node :=
  fold_left (fun f i => flat_map (detach i) f) ids f.

Definition matching (names : list string) (f : list node) : list node :=
  filter (is_named names) (flat_map subtree f).

(** A tag's own removal, as one step of the loop on a forest. *)
Definition loop_erases (names : list string) (c : node) : Prop :=
  NoDup (tag_ids c) ->
  detach_each (ids_of (matching names [c])) [c] = erase names c.

End Bs4.

(** ** The script: web text extractor *)

Definition non_content : list string :=
  ["script"; "style"; "noscript"; "svg"; "img"; "video"; "audio"; "canvas";
   "iframe"].

(** [for tag in soup([...]): tag.decompose()]: the list of tags is computed
    once, then the tags are decomposed one after the other. *)
Definition remove_non_content (soup : Bs4.node) : Bs4.node :=
  fold_left (fun soup tag => Bs4.decompose tag soup)
            (Bs4.find_all non_content soup) soup.

(** [main if main else soup.body if soup.body else soup]; a tag is always
    truthy. *)
Definition content_root (soup : Bs4.node) : Bs4.node :=
  match Bs4.find "main" soup with
  | Some main => main
  | None =>
      match Bs4.find "body" soup with
      | Some body => body
      | None => soup
      end
  end.

Definition flush (run : nat) : string :=
  if (3 <=? run)%nat then nl ++ nl else line_feeds run.

(** [re.sub(r"\n{3,}", "\n\n", s)]: [run] counts the line feeds read since
    the last other character; a run of three or more is written as two. *)
Fixpoint collapse_from (run : nat) (s : string) : string :=
  match s with
  | EmptyString => flush run
  | String c s' =>
      if Ascii.eqb c LF then collapse_from (S run) s'
      else flush run ++ String c (collapse_from 0 s')
  end.

Definition collapse_newlines (s : string) : string := collapse_from 0 s.

(** Lines 69 to 71 of the script: the trimmed, non-empty lines, joined. *)
Definition joined_lines (text : string) : string :=
  let lines := map strip (splitlines text) in
  let lines := filter (fun ln => negb (is_empty ln)) lines in
  join nl lines.

(** Lines 69 to 75 of the script: the whitespace clean-up. *)
Definition clean_text (text : string) : string :=
  let cleaned := joined_lines text in
  strip (collapse_newlines cleaned).

(** What the script knows of a line it keeps. *)
Definition kept_line (l : string) : Prop :=
  l <> EmptyString /\ contains LF l = false
  /\ starts_with_space l = false /\ ends_with_space l = false.

(** Lines 59 to 75 of the script: from the parsed page to the text. *)
Definition visible_text (soup : Bs4.node) : string :=
  let soup := remove_non_content soup in
  let content_root := content_root soup in
  let text := Bs4.get_text nl content_root in
  clean_text text.

Record Response : Type := mkResponse {
  status_code : nat;
  text : string
}.

(** [resp.raise_for_status()] *)
Definition raise_for_status (resp : Response) : result unit :=
  if (400 <=? status_code resp)%nat && (status_code resp <? 600)%nat
  then Raise HTTPError
  else Ok tt.

Definition user_agent : string :=
  "Mozilla/5.0 (Windows NT 10.0; Win64; x64) " ++
  "AppleWebKit/537.36 (KHTML, like Gecko) " ++
  "Chrome/120.0 Safari/537.36".

Section Extractor.

(** [requests.get(url, headers=..., timeout=...)]: the response, or the
    exception of a failed connection or an elapsed timeout. *)
Variable requests_get :
  string -> list (string * string) -> nat -> result Response.

(** [BeautifulSoup(markup, "html.parser")] *)
Variable html_parser : string -> result Bs4.node.

Definition scrape_website_text (url : string) (timeout : nat) : result string :=
  let headers := [("User-Agent", user_agent)] in
  resp <- requests_get url headers timeout ;;
  _ <- raise_for_status resp ;;
  soup <- html_parser (text resp) ;;
  Ok (visible_text soup).

End Extractor.

(** ** The script: prompt composer and completion client *)

Definition SYSTEM_PROMPT : string :=
  "You are a Senior CRM Professional with 10+ years of experience in high-end marketing. " ++
  "You write concise, persuasive, and professional email copy. " ++
  "You never use cheesy or spammy language. " ++
  "Use the provided business details to tailor the tone.".

Definition build_user_prompt (business_text promo_details : string) : string :=
  "BUSINESS DETAILS (from website and/or user):" ++ nl ++
  business_text ++ nl ++ nl ++
  "PROMOTION DETAILS:" ++ nl ++
  promo_details ++ nl ++ nl ++
  "TASK:" ++ nl ++
  "Write one promotional email suitable for a small business to send to customers." ++ nl ++
  "Requirements:" ++ nl ++
  "- Subject line + email body." ++ nl ++
  "- Clear offer and timeframe." ++ nl ++
  "- Professional, concise, persuasive." ++ nl ++
  "- No spammy words (e.g., 'ACT NOW!!!', 'FREE MONEY', 'guaranteed')." ++ nl ++
  "- Include a clear call-to-action." ++ nl ++
  "- If the business type is unclear, keep it broadly applicable." ++ nl.

Definition max_chars : nat := 7000.

Definition truncation_marker : string := nl ++ "...(truncated)...".

(** The [input=[...]] argument of [client.responses.create]: role and
    content of each message. *)
Definition request_input (user_prompt : string) : list (string * string) :=
  [("system", SYSTEM_PROMPT); ("user", user_prompt)].

(** [resp.output_text or ""], for an output text that may be [None]. *)
Definition text_or_empty (output_text : option string) : string :=
  match output_text with
  | Some t => t
  | None => EmptyString
  end.

(** The business text as it enters the prompt. *)
Definition composed_business_text (business_text : string) : string :=
  let trimmed := strip business_text in
  if (max_chars <? String.length trimmed)%nat
  then take max_chars trimmed ++ truncation_marker
  else trimmed.

Section Client.

(** [OpenAI(api_key=...).responses.create(model=..., input=...)]: the
    [output_text] of the response, or the exception raised by the client. *)
Variable responses_create :
  string -> string -> list (string * string) -> result (option string).

Definition call_openai (api_key business_text promo_details : string)
  : result string :=
  let business_text := strip (or_else business_text EmptyString) in
  let promo_details := strip (or_else promo_details EmptyString) in
  let business_text :=
    if (max_chars <? String.length business_text)%nat
    then take max_chars business_text ++ truncation_marker
    else business_text in
  let user_prompt := build_user_prompt business_text promo_details in
  resp <- responses_create api_key "gpt-4o" (request_input user_prompt) ;;
  Ok (strip (text_or_empty resp)).

End Client.

(** ** The script: what happens on [Generate Promotional Email] *)

(** What a run does that can be observed: the Streamlit widgets it writes
    and the two outside calls it makes. *)
Inductive event : Type :=
  | StError (msg : string)
  | StErrorExc (msg : string) (e : exn)
  | StWarning (msg : string)
  | StSuccess (msg : string)
  | StInfo (msg : string)
  | StTextArea (label value : string) (height : nat)
  | StDownloadButton (label data file_name mime : string)
  | Scrape (url : string)
  | Completion (api_key business_text promo_details : string).

(** How a piece of the script ends: it goes on with a value, [st.stop()]
    halted the run, or an exception escaped. *)
Inductive flow (A : Type) : Type :=
  | Next (a : A)
  | Stopped
  | Crashed (e : exn).

Arguments Next {A} a.
Arguments Stopped {A}.
Arguments Crashed {A} e.

(** A piece of the script: from the events so far to its ending and the
    events after it. *)
Definition script (A : Type) : Type := list event -> flow A * list event.

Definition pure {A : Type} (a : A) : script A := fun tr => (Next a, tr).

Definition and_then {A B : Type} (m : script A) (k : A -> script B) : script B :=
  fun tr =>
    match m tr with
    | (Next a, tr') => k a tr'
    | (Stopped, tr') => (Stopped, tr')
    | (Crashed e, tr') => (Crashed e, tr')
    end.

Notation "x <~ m ;; k" := (and_then m (fun x => k))
  (at level 61, m at next level, right associativity).

Notation "' pat <~ m ;; k" :=
  (and_then m (fun x => match x with pat => k end))
  (at level 61, pat pattern, m at next level, right associativity).

Definition emit (e : event) : script unit := fun tr => (Next tt, (tr ++ [e])%list).

(** [st.stop()] *)
Definition st_stop {A : Type} : script A := fun tr => (Stopped, tr).

(** A call outside any [try]: its exception ends the run. *)
Definition uncaught {A : Type} (r : result A) : script A :=
  fun tr =>
    match r with
    | Ok a => (Next a, tr)
    | Raise e => (Crashed e, tr)
    end.

Definition fallback_warning : string :=
  "I couldn't scrape enough text from that website (this can happen due to site protections or dynamic pages). " ++
  "Please use the 'Business Description' box above to describe your business, then click Generate again.".

Section Generate.

Variable ip_address : string -> result Urllib.ip_version.
Variable requests_get :
  string -> list (string * string) -> nat -> result Response.
Variable html_parser : string -> result Bs4.node.
Variable responses_create :
  string -> string -> list (string * string) -> result (option string).

(** The two outside calls, made inside a [try]: the call is recorded and
    its outcome handed to the handler. *)
Definition try_scrape (url : string) : script (result string) :=
  _ <~ emit (Scrape url) ;;
  pure (scrape_website_text requests_get html_parser url 12).

Definition try_call_openai (api_key business_text promo_details : string)
  : script (result string) :=
  _ <~ emit (Completion api_key business_text promo_details) ;;
  pure (call_openai responses_create api_key business_text promo_details).

(** The body of [if generate:]. *)
Definition on_generate
    (api_key website_url_raw promo_details manual_description : string)
  : script unit :=
  _ <~ (if is_empty api_key then
          _ <~ emit (StError "Missing API Key. Add your OpenAI API Key in the sidebar, then try again.") ;;
          st_stop
        else pure tt) ;;
  website_url <~ uncaught (normalize_url ip_address website_url_raw) ;;
  _ <~ (if is_empty website_url then
          _ <~ emit (StError "Please enter a valid Business Website URL (include a domain like example.com).") ;;
          st_stop
        else pure tt) ;;
  _ <~ (if is_empty (strip promo_details) then
          _ <~ emit (StError "Please enter Promotion Details.") ;;
          st_stop
        else pure tt) ;;
  let business_text := EmptyString in
  let scrape_failed := false in
  '(business_text, scrape_failed) <~
    (r <~ try_scrape website_url ;;
     match r with
     | Ok scraped =>
         if (String.length scraped <? 300)%nat
         then pure (business_text, true)
         else pure (scraped, scrape_failed)
     | Raise _ => pure (business_text, true)
     end) ;;
  business_text <~
    (if scrape_failed then
       _ <~ emit (StWarning fallback_warning) ;;
       if is_empty (strip manual_description) then st_stop
       else pure (strip manual_description)
     else pure business_text) ;;
  email_text <~
    (r <~ try_call_openai api_key business_text promo_details ;;
     match r with
     | Ok email_text => pure email_text
     | Raise e =>
         _ <~ emit (StErrorExc "OpenAI request failed: " e) ;;
         st_stop
     end) ;;
  _ <~ (if is_empty email_text then
          _ <~ emit (StError "No email text was returned. Please try again (or simplify your promotion details).") ;;
          st_stop
        else pure tt) ;;
  _ <~ emit (StSuccess "Email generated!") ;;
  _ <~ emit (StTextArea "Generated Email (copy this)" email_text 320) ;;
  emit (StDownloadButton "Download as .txt" email_text
          "promotional_email.txt" "text/plain").

(** One run of the part of the script after the input widgets. *)
Definition run (generate : bool)
    (api_key website_url_raw promo_details manual_description : string)
  : flow unit * list event :=
  (if generate
   then on_generate api_key website_url_raw promo_details manual_description
   else emit (StInfo "Enter your details above, then click **Generate Promotional Email**."))
    [].

End Generate.

Definition is_completion (e : event) : bool :=
  match e with
  | Completion _ _ _ => true
  | _ => false
  end.

(** ** Notions used in the further statements *)

(** [t] is [s] without its leading and trailing white space: [s] is [t]
    between two runs of white space, and [t] neither begins nor ends with
    white space. *)
Definition trimmed_of (s t : string) : Prop :=
  (exists a b,
      s = a ++ t ++ b
      /\ forallb isspace a = true /\ forallb isspace b = true)
  /\ starts_with_space t = false /\ ends_with_space t = false.

(** The characters that end the host part of a URL. *)
Definition is_delimiter (c : ascii) : bool :=
  Ascii.eqb c "/" || Ascii.eqb c "?" || Ascii.eqb c "#".

(** The characters of [s] that are not white space, in order. *)
Fixpoint non_space (s : string) : string :=
  match s with
  | EmptyString => EmptyString
  | String c s' => if isspace c then non_space s' else String c (non_space s')
  end.

(** Whether [s] holds none of the characters [splitlines] breaks at. *)
Definition no_linebreak (s : string) : bool :=
  forallb (fun c => negb (is_linebreak c)) s.

(** A line as the clean-up leaves it. *)
Definition clean_line (l : string) : Prop :=
  l <> EmptyString /\ no_linebreak l = true
  /\ starts_with_space l = false /\ ends_with_space l = false.

(** The parts written one after the other. *)
Definition flatten (parts : list string) : string :=
  fold_right append EmptyString parts.

(** What separates the business text from the promotion details in the
    prompt. *)
Definition promotion_header : string :=
  nl ++ nl ++ "PROMOTION DETAILS:" ++ nl.

Definition is_scrape (e : event) : bool :=
  match e with
  | Scrape _ => true
  | _ => false
  end.

(** The widgets that tell the user why a run halted. *)
Definition is_message (e : event) : bool :=
  match e with
  | StError _ | StErrorExc _ _ | StWarning _ => true
  | _ => false
  end.

(** The widgets that show a generated e-mail. *)
Definition is_result (e : event) : bool :=
  match e with
  | StSuccess _ | StTextArea _ _ _ | StDownloadButton _ _ _ _ => true
  | _ => false
  end.

Section Runs.

Variable ip_address : string -> result Urllib.ip_version.
Variable requests_get :
  string -> list (string * string) -> nat -> result Response.
Variable html_parser : string -> result Bs4.node.
Variable responses_create :
  string -> string -> list (string * string) -> result (option string).

(** Scraping raised, or returned fewer than 300 characters. *)
Definition scrape_insufficient (url : string) : Prop :=
  (exists e, scrape_website_text requests_get html_parser url 12 = Raise e)
  \/ (exists scraped,
         scrape_website_text requests_get html_parser url 12 = Ok scraped
         /\ String.length scraped < 300).

(** The business text of a run that has one, with the events up to it:
    the scraped text, or the trimmed manual description. *)
Inductive business_text_from (url manual_description : string)
  : string -> list event -> Prop :=
  | from_page (scraped : string) :
      scrape_website_text requests_get html_parser url 12 = Ok scraped ->
      300 <= String.length scraped ->
      business_text_from url manual_description scraped [Scrape url]
  | from_description :
      scrape_insufficient url ->
      strip manual_description <> EmptyString ->
      business_text_from url manual_description (strip manual_description)
        [Scrape url; StWarning fallback_warning].

(** The runs of the [if generate:] block, one case for each way through
    it. *)
Inductive generate_run
    (api_key website_url_raw promo_details manual_description : string)
  : flow unit -> list event -> Prop :=
  | run_missing_key :
      api_key = EmptyString ->
      generate_run api_key website_url_raw promo_details manual_description
        Stopped
        [StError "Missing API Key. Add your OpenAI API Key in the sidebar, then try again."]
  | run_url_raises (e : exn) :
      api_key <> EmptyString ->
      normalize_url ip_address website_url_raw = Raise e ->
      generate_run api_key website_url_raw promo_details manual_description
        (Crashed e) []
  | run_url_invalid :
      api_key <> EmptyString ->
      normalize_url ip_address website_url_raw = Ok EmptyString ->
      generate_run api_key website_url_raw promo_details manual_description
        Stopped
        [StError "Please enter a valid Business Website URL (include a domain like example.com)."]
  | run_no_promotion (url : string) :
      api_key <> EmptyString ->
      normalize_url ip_address website_url_raw = Ok url ->
      url <> EmptyString ->
      strip promo_details = EmptyString ->
      generate_run api_key website_url_raw promo_details manual_description
        Stopped [StError "Please enter Promotion Details."]
  | run_no_description (url : string) :
      api_key <> EmptyString ->
      normalize_url ip_address website_url_raw = Ok url ->
      url <> EmptyString ->
      strip promo_details <> EmptyString ->
      scrape_insufficient url ->
      strip manual_description = EmptyString ->
      generate_run api_key website_url_raw promo_details manual_description
        Stopped [Scrape url; StWarning fallback_warning]
  | run_service_failed (url business_text : string) (before : list event)
      (e : exn) :
      api_key <> EmptyString ->
      normalize_url ip_address website_url_raw = Ok url ->
      url <> EmptyString ->
      strip promo_details <> EmptyString ->
      business_text_from url manual_description business_text before ->
      call_openai responses_create api_key business_text promo_details
      = Raise e ->
      generate_run api_key website_url_raw promo_details manual_description
        Stopped
        (before ++ [Completion api_key business_text promo_details;
                    StErrorExc "OpenAI request failed: " e])%list
  | run_no_email (url business_text : string) (before : list event) :
      api_key <> EmptyString ->
      normalize_url ip_address website_url_raw = Ok url ->
      url <> EmptyString ->
      strip promo_details <> EmptyString ->
      business_text_from url manual_description business_text before ->
      call_openai responses_create api_key business_text promo_details
      = Ok EmptyString ->
      generate_run api_key website_url_raw promo_details manual_description
        Stopped
        (before ++ [Completion api_key business_text promo_details;
                    StError "No email text was returned. Please try again (or simplify your promotion details)."])%list
  | run_email (url business_text : string) (before : list event)
      (email_text : string) :
      api_key <> EmptyString ->
      normalize_url ip_address website_url_raw = Ok url ->
      url <> EmptyString ->
      strip promo_details <> EmptyString ->
      business_text_from url manual_description business_text before ->
      call_openai responses_create api_key business_text promo_details
      = Ok email_text ->
      email_text <> EmptyString ->
      generate_run api_key website_url_raw promo_details manual_description
        (Next tt)
        (before ++ [Completion api_key business_text promo_details;
                    StSuccess "Email generated!";
                    StTextArea "Generated Email (copy this)" email_text 320;
                    StDownloadButton "Download as .txt" email_text
                      "promotional_email.txt" "text/plain"])%list.

End Runs.

(** ** Concrete pages and services, for the instances below *)

(** Whether the numbers of a list are pairwise distinct. *)
Fixpoint distinct (l : list nat) : bool :=
  match l with
  | [] => true
  | x :: l' => negb (existsb (Nat.eqb x) l') && distinct l'
  end.

(** A server that answers every request with [status] and [body], and a
    parser that answers with a given tree. *)
Definition serve (status : nat) (body : string)
  : string -> list (string * string) -> nat -> result Response :=
  fun _ _ _ => Ok (mkResponse status body).

Definition parsed_as (soup : Bs4.node) : string -> result Bs4.node :=
  fun _ => Ok soup.

(** The tree of
    [<html><head><script>alert(1)</script></head><body><main> Fresh bread
    <noscript>enable scripts</noscript></main><p>footer</p></body></html>]. *)
Definition bakery_page : Bs4.node :=
  Bs4.Tag 0 "[document]"
    [Bs4.Tag 1 "html"
       [Bs4.Tag 2 "head"
          [Bs4.Tag 3 "script" [Bs4.Str Bs4.Script "alert(1)"]];
        Bs4.Tag 4 "body"
          [Bs4.Tag 5 "main"
             [Bs4.Str Bs4.NavigableString " Fresh bread ";
              Bs4.Tag 6 "noscript"
                [Bs4.Str Bs4.NavigableString "enable scripts"]];
           Bs4.Tag 7 "p" [Bs4.Str Bs4.NavigableString "footer"]]]].

(** The tree of
    [<noscript><main>INSIDE</main></noscript><p>OUTSIDE</p>]. *)
Definition noscript_page : Bs4.node :=
  Bs4.Tag 0 "[document]"
    [Bs4.Tag 1 "noscript"
       [Bs4.Tag 2 "main" [Bs4.Str Bs4.NavigableString "INSIDE"]];
     Bs4.Tag 3 "p" [Bs4.Str Bs4.NavigableString "OUTSIDE"]].

(** The tree of
    [<html><head><title>Shop</title></head><body><p>Open daily</p>
    <style>p {}</style></body></html>]: a [body], no [main]. *)
Definition plain_page : Bs4.node :=
  Bs4.Tag 0 "[document]"
    [Bs4.Tag 1 "html"
       [Bs4.Tag 2 "head"
          [Bs4.Tag 3 "title" [Bs4.Str Bs4.NavigableString "Shop"]];
        Bs4.Tag 4 "body"
          [Bs4.Tag 5 "p" [Bs4.Str Bs4.NavigableString "Open daily"];
           Bs4.Tag 6 "style" [Bs4.Str Bs4.Stylesheet "p {}"]]]].

(** [bakery_page] with another script and another [noscript] text. *)
Definition bakery_page_variant : Bs4.node :=
  Bs4.Tag 0 "[document]"
    [Bs4.Tag 1 "html"
       [Bs4.Tag 2 "head"
          [Bs4.Tag 3 "script" [Bs4.Str Bs4.Script "track()"]];
        Bs4.Tag 4 "body"
          [Bs4.Tag 5 "main"
             [Bs4.Str Bs4.NavigableString " Fresh bread ";
              Bs4.Tag 6 "noscript"
                [Bs4.Tag 8 "img" [];
                 Bs4.Str Bs4.NavigableString "please enable scripts"]];
           Bs4.Tag 7 "p" [Bs4.Str Bs4.NavigableString "footer"]]]].

(** The tree of a page whose [body] holds 300 characters of text. *)
Definition long_page : Bs4.node :=
  Bs4.Tag 0 "[document]"
    [Bs4.Tag 1 "body"
       [Bs4.Str Bs4.NavigableString
          (Nat.iter 60 (append "bread") EmptyString)]].

(** An address parser that knows the two loopback addresses. *)
Definition loopback_only (address : string) : result Urllib.ip_version :=
  if String.eqb address "::1" then Ok Urllib.IPv6Address
  else if String.eqb address "127.0.0.1" then Ok Urllib.IPv4Address
  else Raise ValueError.

(** A completion service that answers with no text. *)
Definition silent_service
  : string -> string -> list (string * string) -> result (option string) :=
  fun _ _ _ => Ok None.

(** A completion service that answers with a fixed e-mail, and one that
    fails. *)
Definition canned_service
  : string -> string -> list (string * string) -> result (option string) :=
  fun _ _ _ => Ok (Some "Subject: Fresh bread").

Definition failing_service
  : string -> string -> list (string * string) -> result (option string) :=
  fun _ _ _ => Raise OpenAIError.

(** A completion service whose answer has white space around it. *)
Definition padded_service
  : string -> string -> list (string * string) -> result (option string) :=
  fun _ _ _ => Ok (Some ("  Subject: Fresh bread " ++ nl)).

(** A server that cannot be reached. *)
Definition unreachable
  : string -> list (string * string) -> nat -> result Response :=
  fun _ _ _ => Raise RequestException.

(** Three runs: one that scrapes [long_page] and gets an e-mail, one whose
    page cannot be reached and whose completion call fails, and one on an
    input with an unmatched bracket. *)
Definition scraped_run : flow unit * list event :=
  run loopback_only (serve 200 "page") (parsed_as long_page) canned_service
    true "sk-test" "example.com" "20% off" EmptyString.

Definition failed_service_run : flow unit * list event :=
  run loopback_only unreachable (parsed_as long_page) failing_service
    true "sk-test" "example.com" "20% off" "A bakery.".

Definition bracket_run : flow unit * list event :=
  run loopback_only unreachable (parsed_as long_page) canned_service
    true "sk-test" "[" "20% off" "A bakery.".

(** * Properties *)

(** ** Strings *)

Section StringFacts.

Lemma str_app_nil_r (s : string) : s ++ EmptyString = s.
Proof. induction s as [|c s IH]; simpl; [reflexivity | now rewrite IH]. Qed.

Lemma str_app_assoc (a b c : string) : (a ++ b) ++ c = a ++ b ++ c.
Proof. induction a as [|x a IH]; simpl; [reflexivity | now rewrite IH]. Qed.

Lemma str_app_eq_nil (a b : string) :
  a ++ b = EmptyString -> a = EmptyString /\ b = EmptyString.
Proof. destruct a; simpl; [auto | discriminate]. Qed.

Lemma is_empty_true (s : string) : is_empty s = true <-> s = EmptyString.
Proof. destruct s; simpl; split; intro H; try reflexivity; discriminate. Qed.

Lemma is_empty_false (s : string) : is_empty s = false <-> s <> EmptyString.
Proof.
  destruct s; simpl; split; intro H; try reflexivity; try discriminate.
  now contradiction H.
Qed.

Lemma startswith_app (p s : string) : startswith p (p ++ s) = true.
Proof.
  induction p as [|c p IH]; simpl; [reflexivity |].
  now rewrite Ascii.eqb_refl, IH.
Qed.

Lemma startswith_spec (p s : string) :
  startswith p s = true <-> exists b, s = p ++ b.
Proof.
  split.
  - revert s. induction p as [|c p IH]; intros s H; simpl in *.
    + now exists s.
    + destruct s as [|d s]; [discriminate |].
      apply andb_true_iff in H. destruct H as [Hc Hp].
      apply Ascii.eqb_eq in Hc. subst d.
      destruct (IH _ Hp) as [b ->]. now exists b.
  - intros [b ->]. apply startswith_app.
Qed.

Lemma contains_str_cons (p : string) (c : ascii) (s : string) :
  contains_str p (String c s) = startswith p (String c s) || contains_str p s.
Proof. reflexivity. Qed.

Lemma contains_str_app_r (p a s : string) :
  contains_str p s = true -> contains_str p (a ++ s) = true.
Proof.
  intro H. induction a as [|c a IH]; simpl; [exact H |].
  fold (contains_str p (a ++ s)). rewrite IH. apply orb_true_r.
Qed.

Lemma contains_str_spec (p s : string) :
  contains_str p s = true <-> exists a b, s = a ++ p ++ b.
Proof.
  split.
  - induction s as [|c s IH]; intro H.
    + simpl in H. rewrite orb_false_r in H.
      apply startswith_spec in H. destruct H as [b Hb].
      now exists EmptyString, b.
    + rewrite contains_str_cons in H. apply orb_true_iff in H.
      destruct H as [H | H].
      * apply startswith_spec in H. destruct H as [b Hb].
        now exists EmptyString, b.
      * destruct (IH H) as (a & b & ->). now exists (String c a), b.
  - intros (a & b & ->). apply contains_str_app_r.
    destruct (p ++ b) eqn:E; simpl.
    + rewrite <- E, startswith_app. reflexivity.
    + rewrite <- E at 1. rewrite startswith_app. reflexivity.
Qed.

Lemma contains_str_infix (p a s b : string) :
  contains_str p s = true -> contains_str p (a ++ s ++ b) = true.
Proof.
  intro H. apply contains_str_spec in H. destruct H as (x & y & ->).
  apply contains_str_spec. exists (a ++ x), (y ++ b).
  now rewrite !str_app_assoc.
Qed.

Lemma lstrip_suffix (p : ascii -> bool) (s : string) :
  exists a, s = a ++ lstrip_with p s.
Proof.
  induction s as [|c s [a IH]]; simpl.
  - now exists EmptyString.
  - destruct (p c).
    + exists (String c a). simpl. now rewrite <- IH.
    + now exists EmptyString.
Qed.

Lemma rstrip_prefix (p : ascii -> bool) (s : string) :
  exists b, s = rstrip_with p s ++ b.
Proof.
  induction s as [|c s [b IH]]; simpl.
  - now exists EmptyString.
  - destruct (rstrip_with p s) as [|d r] eqn:E.
    + destruct (p c).
      * now exists (String c s).
      * exists s. reflexivity.
    + exists b. simpl in *. now rewrite <- IH.
Qed.

Lemma strip_infix (s : string) : exists a b, s = a ++ strip s ++ b.
Proof.
  unfold strip.
  destruct (lstrip_suffix isspace s) as [a Ha].
  destruct (rstrip_prefix isspace (lstrip_with isspace s)) as [b Hb].
  exists a, b. now rewrite <- Hb.
Qed.

Lemma contains_str_strip (p s : string) :
  contains_str p s = false -> contains_str p (strip s) = false.
Proof.
  intro H. destruct (contains_str p (strip s)) eqn:E; [| reflexivity].
  destruct (strip_infix s) as (a & b & Hs).
  apply (contains_str_infix p a _ b) in E. rewrite <- Hs in E. congruence.
Qed.

Lemma flush_cases (run : nat) :
  flush run = EmptyString \/ flush run = nl \/ flush run = nl ++ nl.
Proof.
  unfold flush. destruct run as [|[|[|run]]]; simpl; auto.
Qed.

Lemma no_triple_after_flush (run : nat) (c : ascii) (t : string) :
  Ascii.eqb LF c = false ->
  contains_str (nl ++ nl ++ nl) t = false ->
  contains_str (nl ++ nl ++ nl) (flush run ++ String c t) = false.
Proof.
  intros E H.
  destruct (flush_cases run) as [-> | [-> | ->]];
    cbn [append contains_str startswith nl];
    cbn [append contains_str startswith nl] in H;
    rewrite ?Ascii.eqb_refl, ?E, ?H; reflexivity.
Qed.

Lemma collapse_from_no_triple (s : string) :
  forall run, contains_str (nl ++ nl ++ nl) (collapse_from run s) = false.
Proof.
  induction s as [|c s IH]; intro run; cbn [collapse_from].
  - destruct (flush_cases run) as [-> | [-> | ->]]; reflexivity.
  - destruct (Ascii.eqb c LF) eqn:E; [apply IH |].
    apply no_triple_after_flush; [| apply IH].
    now rewrite Ascii.eqb_sym.
Qed.

Lemma clean_text_no_triple (text : string) :
  contains_str (nl ++ nl ++ nl) (clean_text text) = false.
Proof.
  unfold clean_text, collapse_newlines.
  apply contains_str_strip, collapse_from_no_triple.
Qed.

Lemma take_drop (n : nat) (s : string) : take n s ++ drop n s = s.
Proof.
  revert s. induction n as [|n IH]; intros [|c s]; cbn; try reflexivity.
  now rewrite IH.
Qed.

Lemma length_take (n : nat) (s : string) :
  n <= String.length s -> String.length (take n s) = n.
Proof.
  revert s. induction n as [|n IH]; intros [|c s] H; cbn in *;
    try reflexivity; try lia.
  rewrite IH; lia.
Qed.

Lemma or_else_empty (x : string) : or_else x EmptyString = x.
Proof. now destruct x. Qed.

Lemma contains_app (c : ascii) (a b : string) :
  contains c (a ++ b) = contains c a || contains c b.
Proof.
  induction a as [|d a IH]; simpl; [reflexivity |].
  now rewrite IH, orb_assoc.
Qed.

Lemma linebreak_LF (c : ascii) : is_linebreak c = false -> Ascii.eqb LF c = false.
Proof.
  intro H. destruct (Ascii.eqb LF c) eqn:E; [| reflexivity].
  apply Ascii.eqb_eq in E. subst c. discriminate H.
Qed.

Lemma isspace_LF (c : ascii) : isspace c = false -> Ascii.eqb LF c = false.
Proof.
  intro H. destruct (Ascii.eqb LF c) eqn:E; [| reflexivity].
  apply Ascii.eqb_eq in E. subst c. discriminate H.
Qed.

(** No line produced by [splitlines] holds a line feed. *)
Lemma splitlines_from_no_LF (n : nat) :
  forall s cur,
    String.length s <= n ->
    contains LF cur = false ->
    Forall (fun l => contains LF l = false) (splitlines_from cur s).
Proof.
  induction n as [|n IH]; intros s cur Hn Hcur.
  - destruct s; [| simpl in Hn; lia].
    simpl. destruct cur; constructor; auto.
  - destruct s as [|c s].
    + simpl. destruct cur; constructor; auto.
    + simpl in Hn. cbn [splitlines_from].
      destruct (is_linebreak c) eqn:Hc.
      * constructor; [exact Hcur |].
        destruct s as [|d s'].
        -- simpl. constructor.
        -- destruct (Ascii.eqb c CR && Ascii.eqb d LF).
           ++ apply IH; [simpl in Hn; lia | reflexivity].
           ++ apply IH; [lia | reflexivity].
      * apply IH; [lia |].
        rewrite contains_app, Hcur. cbn [contains orb].
        now rewrite (linebreak_LF _ Hc).
Qed.

Lemma strip_no_LF (l : string) :
  contains LF l = false -> contains LF (strip l) = false.
Proof.
  intro H. destruct (strip_infix l) as (a & b & Hl).
  rewrite Hl, !contains_app in H.
  apply orb_false_iff in H. destruct H as [_ H].
  apply orb_false_iff in H. tauto.
Qed.

Lemma lstrip_starts (s : string) :
  starts_with_space (lstrip_with isspace s) = false.
Proof.
  induction s as [|c s IH]; simpl; [reflexivity |].
  destruct (isspace c) eqn:E; [exact IH | simpl; exact E].
Qed.

Lemma rstrip_starts (s : string) :
  starts_with_space s = false ->
  starts_with_space (rstrip_with isspace s) = false.
Proof.
  destruct s as [|c s]; simpl; [reflexivity |].
  intro H. destruct (rstrip_with isspace s); [rewrite H |]; simpl; auto.
Qed.

Lemma rstrip_ends (s : string) :
  ends_with_space (rstrip_with isspace s) = false.
Proof.
  induction s as [|c s IH]; simpl; [reflexivity |].
  destruct (rstrip_with isspace s) as [|d r].
  - destruct (isspace c) eqn:E; simpl; auto.
  - exact IH.
Qed.

Lemma lstrip_id (s : string) :
  starts_with_space s = false -> lstrip_with isspace s = s.
Proof. destruct s as [|c s]; simpl; [reflexivity |]. now intros ->. Qed.

Lemma rstrip_id (s : string) :
  ends_with_space s = false -> rstrip_with isspace s = s.
Proof.
  induction s as [|c s IH]; [reflexivity |].
  intro H. cbn [rstrip_with]. destruct s as [|d s].
  - simpl in *. now rewrite H.
  - rewrite (IH H). reflexivity.
Qed.

Lemma strip_id (s : string) :
  starts_with_space s = false -> ends_with_space s = false -> strip s = s.
Proof.
  intros H1 H2. unfold strip. rewrite (lstrip_id _ H1). now apply rstrip_id.
Qed.

Lemma kept_lines_ok (text : string) :
  Forall kept_line
    (filter (fun ln => negb (is_empty ln)) (map strip (splitlines text))).
Proof.
  apply Forall_forall. intros l Hl.
  apply filter_In in Hl. destruct Hl as [Hin Hne].
  apply in_map_iff in Hin. destruct Hin as (l0 & <- & Hin0).
  assert (H0 : contains LF l0 = false).
  { pose proof (splitlines_from_no_LF (String.length text) text EmptyString
                  (le_n _) eq_refl) as HF.
    rewrite Forall_forall in HF. now apply HF. }
  repeat split.
  - apply is_empty_false. now apply negb_true_iff.
  - now apply strip_no_LF.
  - unfold strip. apply rstrip_starts, lstrip_starts.
  - apply rstrip_ends.
Qed.

Lemma ends_with_space_app (a t : string) :
  t <> EmptyString -> ends_with_space (a ++ t) = ends_with_space t.
Proof.
  intro Ht. induction a as [|c a IH]; [reflexivity |].
  cbn [append ends_with_space]. rewrite IH.
  destruct (a ++ t) eqn:E; [| reflexivity].
  apply str_app_eq_nil in E. tauto.
Qed.

Lemma no_LF_no_double (x t : string) :
  contains LF x = false ->
  contains_str (nl ++ nl) (x ++ t) = contains_str (nl ++ nl) t.
Proof.
  intro H. induction x as [|c x IH]; [reflexivity |].
  cbn [contains] in H. apply orb_false_iff in H. destruct H as [Hc Hx].
  cbn [append]. rewrite contains_str_cons, (IH Hx).
  cbn [nl append startswith]. now rewrite Hc.
Qed.

(** The joined lines: no blank line, no white space at either end. *)
Lemma join_kept_lines (lines : list string) :
  Forall kept_line lines ->
  contains_str (nl ++ nl) (join nl lines) = false
  /\ starts_with_space (join nl lines) = false
  /\ ends_with_space (join nl lines) = false
  /\ (lines <> [] -> join nl lines <> EmptyString).
Proof.
  induction 1 as [|x rest (Hne & Hlf & Hs & He) Hrest IH].
  - simpl. repeat split; auto.
  - destruct IH as (IH1 & IH2 & IH3 & IH4).
    destruct rest as [|y rest'].
    + cbn [join]. repeat split; auto.
      rewrite <- (str_app_nil_r x), no_LF_no_double by exact Hlf. reflexivity.
    + assert (Hj : join nl (y :: rest') <> EmptyString) by (apply IH4; discriminate).
      change (join nl (x :: y :: rest')) with (x ++ nl ++ join nl (y :: rest')).
      set (J := join nl (y :: rest')) in *.
      repeat split.
      * rewrite no_LF_no_double by exact Hlf.
        unfold nl in IH1 |- *. cbn [append] in IH1 |- *.
        rewrite contains_str_cons, IH1, orb_false_r.
        destruct J as [|d J']; [reflexivity |].
        cbn [startswith]. simpl in IH2.
        now rewrite Ascii.eqb_refl, (isspace_LF _ IH2).
      * destruct x; [contradiction | exact Hs].
      * rewrite ends_with_space_app.
        -- cbn [nl append]. destruct J; [contradiction | exact IH3].
        -- discriminate.
      * intros _ E. apply str_app_eq_nil in E. tauto.
Qed.

Lemma joined_lines_ok (text : string) :
  contains_str (nl ++ nl) (joined_lines text) = false
  /\ starts_with_space (joined_lines text) = false
  /\ ends_with_space (joined_lines text) = false.
Proof.
  destruct (join_kept_lines _ (kept_lines_ok text)) as (H1 & H2 & H3 & _).
  auto.
Qed.

Lemma double_of_triple (s : string) :
  contains_str (nl ++ nl) s = false ->
  contains_str (nl ++ nl ++ nl) s = false.
Proof.
  intro H. destruct (contains_str (nl ++ nl ++ nl) s) eqn:E; [| reflexivity].
  apply contains_str_spec in E. destruct E as (a & b & ->).
  assert (T : contains_str (nl ++ nl) (a ++ (nl ++ nl) ++ nl ++ b) = true)
    by (apply contains_str_spec; eauto).
  rewrite !str_app_assoc in T. rewrite !str_app_assoc in H. congruence.
Qed.

Lemma line_feeds_shift (run : nat) (s : string) :
  line_feeds run ++ String LF s = line_feeds (S run) ++ s.
Proof.
  induction run as [|run IH]; [reflexivity |].
  change (line_feeds (S run)) with (String LF (line_feeds run)).
  cbn [append]. now rewrite IH.
Qed.

Lemma flush_short (run : nat) (s : string) :
  contains_str (nl ++ nl ++ nl) (line_feeds run ++ s) = false ->
  flush run = line_feeds run.
Proof.
  intro H. destruct run as [|[|[|run]]]; try reflexivity.
  exfalso.
  change (line_feeds (S (S (S run))))
    with ((nl ++ nl ++ nl) ++ line_feeds run) in H.
  rewrite str_app_assoc in H.
  assert (T : contains_str (nl ++ nl ++ nl)
                ((nl ++ nl ++ nl) ++ line_feeds run ++ s) = true).
  { apply contains_str_spec. exists EmptyString, (line_feeds run ++ s).
    reflexivity. }
  congruence.
Qed.

(** Without a run of three line feeds the substitution changes nothing. *)
Lemma collapse_from_id (s : string) :
  forall run,
    contains_str (nl ++ nl ++ nl) (line_feeds run ++ s) = false ->
    collapse_from run s = line_feeds run ++ s.
Proof.
  induction s as [|c s IH]; intros run H; cbn [collapse_from].
  - rewrite str_app_nil_r. exact (flush_short run EmptyString H).
  - destruct (Ascii.eqb c LF) eqn:E.
    + apply Ascii.eqb_eq in E. subst c.
      rewrite line_feeds_shift in *. now apply IH.
    + rewrite (flush_short _ _ H). f_equal. f_equal.
      apply (IH 0). change (line_feeds 0 ++ s) with s.
      destruct (contains_str (nl ++ nl ++ nl) s) eqn:T; [| reflexivity].
      apply (contains_str_infix _ (line_feeds run ++ String c EmptyString)
               _ EmptyString) in T.
      rewrite str_app_nil_r, str_app_assoc in T. cbn [append] in T. congruence.
Qed.

Lemma clean_text_joined_lines (text : string) :
  collapse_newlines (joined_lines text) = joined_lines text
  /\ strip (joined_lines text) = joined_lines text.
Proof.
  destruct (joined_lines_ok text) as (H1 & H2 & H3).
  split.
  - unfold collapse_newlines. rewrite collapse_from_id; [reflexivity |].
    change (line_feeds 0 ++ joined_lines text) with (joined_lines text).
    now apply double_of_triple.
  - now apply strip_id.
Qed.

End StringFacts.

(** ** Parse trees *)

Section TreeFacts.
Import Bs4.
#[local] Open Scope list_scope.

Variable names : list string.

Lemma ids_of_app (a b : list node) : ids_of (a ++ b) = ids_of a ++ ids_of b.
Proof. apply flat_map_app. Qed.

Lemma ids_of_subtree (n : node) : ids_of (subtree n) = tag_ids n.
Proof.
  induction n as [ty s | i nm cs IH] using node_forall_ind; [reflexivity |].
  cbn [subtree tag_ids]. change (ids_of (?x :: ?l)) with (i :: ids_of l).
  f_equal. induction IH as [|c cs Hc _ IHcs]; [reflexivity |].
  cbn [flat_map]. now rewrite ids_of_app, Hc, IHcs.
Qed.

Lemma ids_of_subtrees (f : list node) :
  ids_of (flat_map subtree f) = flat_map tag_ids f.
Proof.
  induction f as [|c f IH]; [reflexivity |].
  cbn [flat_map]. now rewrite ids_of_app, ids_of_subtree, IH.
Qed.

Lemma ids_of_filter (p : node -> bool) (l : list node) (i : nat) :
  In i (ids_of (filter p l)) -> In i (ids_of l).
Proof.
  unfold ids_of. rewrite !in_flat_map. intros (t & Ht & Hi).
  apply filter_In in Ht. exists t. tauto.
Qed.

Lemma matching_ids (f : list node) (i : nat) :
  In i (ids_of (matching names f)) -> In i (flat_map tag_ids f).
Proof.
  intro H. apply ids_of_filter in H. now rewrite ids_of_subtrees in H.
Qed.

Lemma matching_app (a b : list node) :
  matching names (a ++ b) = matching names a ++ matching names b.
Proof. unfold matching. now rewrite flat_map_app, filter_app. Qed.

Lemma detach_absent (i : nat) (n : node) :
  ~ In i (tag_ids n) -> detach i n = [n].
Proof.
  induction n as [ty s | j nm cs IH] using node_forall_ind; intro H; [reflexivity |].
  cbn [detach tag_ids] in *.
  destruct (Nat.eqb_spec i j) as [-> | Hij]; [exfalso; apply H; now left |].
  do 2 f_equal.
  assert (Hcs : ~ In i (flat_map tag_ids cs)) by (intro; apply H; now right).
  clear H. induction IH as [|c cs Hc _ IHcs]; [reflexivity |].
  cbn [flat_map] in *. rewrite in_app_iff in Hcs.
  rewrite Hc, IHcs by tauto. reflexivity.
Qed.

Lemma detach_absent_forest (i : nat) (f : list node) :
  ~ In i (flat_map tag_ids f) -> flat_map (detach i) f = f.
Proof.
  induction f as [|c f IH]; intro H; [reflexivity |].
  cbn [flat_map] in *. rewrite in_app_iff in H.
  rewrite detach_absent, IH by tauto. reflexivity.
Qed.

Lemma detach_each_nil (ids : list nat) : detach_each ids [] = [].
Proof. induction ids as [|i ids IH]; [reflexivity | exact IH]. Qed.

Lemma detach_each_app (ids : list nat) :
  forall a b, detach_each ids (a ++ b) = detach_each ids a ++ detach_each ids b.
Proof.
  induction ids as [|i ids IH]; intros a b; [reflexivity |].
  cbn [detach_each fold_left]. rewrite flat_map_app. apply IH.
Qed.

Lemma detach_each_absent (ids : list nat) :
  forall f,
    (forall i, In i ids -> ~ In i (flat_map tag_ids f)) ->
    detach_each ids f = f.
Proof.
  induction ids as [|i ids IH]; intros f H; [reflexivity |].
  cbn [detach_each fold_left].
  rewrite detach_absent_forest by (apply H; now left).
  apply IH. intros k Hk. apply H. now right.
Qed.

Lemma detach_each_tag (ids : list nat) (j : nat) (nm : string) :
  forall cs,
    ~ In j ids ->
    detach_each ids [Tag j nm cs] = [Tag j nm (detach_each ids cs)].
Proof.
  induction ids as [|i ids IH]; intros cs H; [reflexivity |].
  cbn [detach_each fold_left flat_map detach].
  destruct (Nat.eqb_spec i j) as [-> | Hij]; [exfalso; apply H; now left |].
  cbn [app]. apply IH. intro Hj. apply H. now right.
Qed.

Lemma erase_ids (n : node) (i : nat) :
  In i (flat_map tag_ids (erase names n)) -> In i (tag_ids n).
Proof.
  revert i. induction n as [ty s | j nm cs IH] using node_forall_ind; intros i H; [exact H |].
  cbn [erase] in H. destruct (existsb (String.eqb nm) names); [contradiction |].
  cbn [flat_map tag_ids app] in *. rewrite app_nil_r in H.
  destruct H as [H | H]; [now left | right].
  induction IH as [|c cs Hc _ IHcs]; [exact H |].
  cbn [flat_map] in *. rewrite flat_map_app, in_app_iff in H.
  rewrite in_app_iff. destruct H as [H | H]; [left; now apply Hc | right; auto].
Qed.

Lemma NoDup_app_disjoint (A : Type) (a b : list A) (x : A) :
  NoDup (a ++ b) -> In x a -> ~ In x b.
Proof.
  induction a as [|y a IH]; intros H Ha Hb; [contradiction |].
  cbn [app] in H. inversion H as [|? ? Hy Hrest]; subst.
  destruct Ha as [-> | Ha]; [apply Hy, in_or_app; now right |].
  now apply (IH Hrest Ha).
Qed.

Lemma loop_erases_forest (cs : list node) :
  Forall (loop_erases names) cs ->
  NoDup (flat_map tag_ids cs) ->
  detach_each (ids_of (matching names cs)) cs = flat_map (erase names) cs.
Proof.
  induction 1 as [|c cs Hc _ IH]; intro ND; [reflexivity |].
  cbn [flat_map] in *.
  change (c :: cs) with ([c] ++ cs).
  rewrite matching_app, ids_of_app.
  unfold detach_each at 1. rewrite fold_left_app.
  fold (detach_each (ids_of (matching names [c])) ([c] ++ cs)).
  fold (detach_each (ids_of (matching names cs))
          (detach_each (ids_of (matching names [c])) ([c] ++ cs))).
  rewrite detach_each_app.
  rewrite (Hc (NoDup_app_remove_r _ _ ND)).
  rewrite (detach_each_absent _ cs).
  - rewrite detach_each_app, (IH (NoDup_app_remove_l _ _ ND)).
    rewrite detach_each_absent; [reflexivity |].
    intros i Hi Hin. apply matching_ids in Hi. apply erase_ids in Hin.
    exact (NoDup_app_disjoint _ _ _ _ ND Hin Hi).
  - intros i Hi. apply matching_ids in Hi. cbn [flat_map] in Hi.
    rewrite app_nil_r in Hi.
    exact (NoDup_app_disjoint _ _ _ _ ND Hi).
Qed.

Lemma loop_erases_node (c : node) : loop_erases names c.
Proof.
  induction c as [ty s | j nm cs IH] using node_forall_ind; intro ND; [reflexivity |].
  cbn [tag_ids] in ND. inversion ND as [|? ? Hj NDcs]; subst.
  unfold matching. cbn [flat_map subtree]. rewrite app_nil_r.
  cbn [filter is_named erase].
  destruct (existsb (String.eqb nm) names) eqn:E.
  - cbn [ids_of flat_map app detach_each fold_left detach].
    rewrite Nat.eqb_refl. apply detach_each_nil.
  - fold (matching names cs). rewrite detach_each_tag.
    + now rewrite loop_erases_forest.
    + intro H. apply Hj. now apply matching_ids.
Qed.

Lemma decompose_each (tags : list node) (r : nat) (nm : string) :
  forall cs,
    fold_left (fun soup tag => decompose tag soup) tags (Tag r nm cs)
    = Tag r nm (detach_each (ids_of tags) cs).
Proof.
  induction tags as [|t tags IH]; intro cs; [reflexivity |].
  cbn [fold_left]. destruct t as [ty s | i n c].
  - apply IH.
  - cbn [decompose]. rewrite IH. reflexivity.
Qed.

(** The loop [for tag in soup(names): tag.decompose()] leaves the tree
    with every such tag erased. *)
Lemma loop_is_erase (soup : node) :
  unique_ids soup ->
  fold_left (fun soup tag => decompose tag soup) (find_all names soup) soup
  = erase_below names soup.
Proof.
  intro ND. destruct soup as [ty s | r nm cs]; [reflexivity |].
  rewrite decompose_each. cbn [erase_below]. f_equal.
  apply loop_erases_forest; [| exact ND].
  apply Forall_forall. intros c _. apply loop_erases_node.
Qed.

Lemma strings_of_app (a b : list node) :
  strings_of (a ++ b) = strings_of a ++ strings_of b.
Proof. apply flat_map_app. Qed.

(** No tag named in [names] is left in an erased tree. *)
Lemma erase_no_match (c : node) : matching names (erase names c) = [].
Proof.
  induction c as [ty s | j nm cs IH] using node_forall_ind; [reflexivity |].
  cbn [erase]. destruct (existsb (String.eqb nm) names) eqn:E; [reflexivity |].
  unfold matching. cbn [flat_map subtree]. rewrite app_nil_r.
  cbn [filter is_named]. rewrite E.
  induction IH as [|c cs Hc _ IHcs]; [reflexivity |].
  cbn [flat_map]. rewrite flat_map_app, filter_app.
  fold (matching names (erase names c)). now rewrite Hc, IHcs.
Qed.

Lemma erase_forest_no_match (cs : list node) :
  matching names (flat_map (erase names) cs) = [].
Proof.
  induction cs as [|c cs IH]; [reflexivity |].
  cbn [flat_map]. now rewrite matching_app, erase_no_match, IH.
Qed.

(** The strings of an erased tree are the strings outside the erased tags. *)
Lemma erase_strings (c : node) :
  strings_of (flat_map subtree (erase names c)) = outside_strings names c.
Proof.
  induction c as [ty s | j nm cs IH] using node_forall_ind.
  - cbn. now rewrite app_nil_r.
  - cbn [erase outside_strings].
    destruct (existsb (String.eqb nm) names); [reflexivity |].
    cbn [flat_map subtree]. rewrite app_nil_r.
    change (strings_of (Tag j nm ?x :: ?l)) with (strings_of l).
    induction IH as [|c cs Hc _ IHcs]; [reflexivity |].
    cbn [flat_map]. now rewrite flat_map_app, strings_of_app, Hc, IHcs.
Qed.

Lemma erase_forest_strings (cs : list node) :
  strings_of (flat_map subtree (flat_map (erase names) cs))
  = flat_map (outside_strings names) cs.
Proof.
  induction cs as [|c cs IH]; [reflexivity |].
  cbn [flat_map]. now rewrite flat_map_app, strings_of_app, erase_strings, IH.
Qed.

(** The strings below a node form one block of the strings of any tree
    that holds the node. *)
Lemma strings_block (n d : node) :
  In d (subtree n) ->
  exists pre post, strings_of (subtree n) = pre ++ _all_strings d ++ post.
Proof.
  induction n as [ty s | j nm cs IH] using node_forall_ind; intro H.
  - destruct H as [<- | []]. exists (strings_of (subtree (Str ty s))), [].
    now rewrite app_nil_r.
  - cbn [subtree] in H. destruct H as [<- | H].
    + exists [], []. now rewrite app_nil_r.
    + change (strings_of (subtree (Tag j nm cs)))
        with (strings_of (flat_map subtree cs)).
      induction IH as [|c cs Hc _ IHcs]; [contradiction |].
      cbn [flat_map] in *. rewrite strings_of_app.
      apply in_app_or in H. destruct H as [H | H].
      * destruct (Hc H) as (pre & post & ->).
        exists pre, (post ++ strings_of (flat_map subtree cs)).
        now rewrite <- !app_assoc.
      * destruct (IHcs H) as (pre & post & ->).
        exists (strings_of (subtree c) ++ pre), post.
        now rewrite <- !app_assoc.
Qed.

Lemma strings_block_forest (cs : list node) (d : node) :
  In d (flat_map subtree cs) ->
  exists pre post,
    strings_of (flat_map subtree cs) = pre ++ _all_strings d ++ post.
Proof.
  induction cs as [|c cs IH]; intro H; [contradiction |].
  cbn [flat_map] in *. rewrite strings_of_app.
  apply in_app_or in H. destruct H as [H | H].
  - destruct (strings_block _ _ H) as (pre & post & ->).
    exists pre, (post ++ strings_of (flat_map subtree cs)).
    now rewrite <- !app_assoc.
  - destruct (IH H) as (pre & post & ->).
    exists (strings_of (subtree c) ++ pre), post.
    now rewrite <- !app_assoc.
Qed.

(** A tag of the erased tree is a tag of the document, erased below. *)
Lemma erase_origin (c : node) (i : nat) (nm : string) (cs' : list node) :
  In (Tag i nm cs') (flat_map subtree (erase names c)) ->
  exists cs0,
    In (Tag i nm cs0) (subtree c) /\ cs' = flat_map (erase names) cs0.
Proof.
  induction c as [ty s | j n cs IH] using node_forall_ind; intro H.
  - cbn in H. destruct H as [H | []]. discriminate H.
  - cbn [erase] in H. destruct (existsb (String.eqb n) names); [contradiction |].
    cbn [flat_map subtree] in H. rewrite app_nil_r in H.
    destruct H as [H | H].
    + injection H as <- <- <-. exists cs. split; [now left | reflexivity].
    + cut (exists cs0, In (Tag i nm cs0) (flat_map subtree cs)
                       /\ cs' = flat_map (erase names) cs0).
      { intros (cs0 & Hin & ->). exists cs0. split; [now right | reflexivity]. }
      induction IH as [|c cs Hc _ IHcs]; [contradiction |].
      cbn [flat_map] in *. rewrite flat_map_app in H.
      apply in_app_or in H. destruct H as [H | H].
      * destruct (Hc H) as (cs0 & Hin & ->). exists cs0.
        split; [apply in_or_app; now left | reflexivity].
      * destruct (IHcs H) as (cs0 & Hin & ->). exists cs0.
        split; [apply in_or_app; now right | reflexivity].
Qed.

Lemma erase_origin_forest (cs : list node) (i : nat) (nm : string)
    (cs' : list node) :
  In (Tag i nm cs') (flat_map subtree (flat_map (erase names) cs)) ->
  exists cs0,
    In (Tag i nm cs0) (flat_map subtree cs)
    /\ cs' = flat_map (erase names) cs0.
Proof.
  induction cs as [|c cs IH]; intro H; [contradiction |].
  cbn [flat_map] in *. rewrite flat_map_app in H.
  apply in_app_or in H. destruct H as [H | H].
  - destruct (erase_origin _ _ _ _ H) as (cs0 & Hin & ->). exists cs0.
    split; [apply in_or_app; now left | reflexivity].
  - destruct (IH H) as (cs0 & Hin & ->). exists cs0.
    split; [apply in_or_app; now right | reflexivity].
Qed.

End TreeFacts.

(** [find] answers with a descendant that bears the name. *)
Lemma find_some (name : string) (root m : Bs4.node) :
  Bs4.find name root = Some m ->
  In m (Bs4.descendants root)
  /\ exists i cs, m = Bs4.Tag i name cs.
Proof.
  unfold Bs4.find, Bs4.find_all. intro H.
  destruct (filter _ _) as [|r l] eqn:E; [discriminate |].
  injection H as ->.
  assert (Hin : In m (filter (Bs4.is_named [name]) (Bs4.descendants root)))
    by (rewrite E; now left).
  apply filter_In in Hin. destruct Hin as [Hd Hn]. split; [exact Hd |].
  destruct m as [ty s | i nm cs]; [discriminate |].
  cbn [Bs4.is_named existsb] in Hn. rewrite orb_false_r in Hn.
  apply String.eqb_eq in Hn. subst nm. eauto.
Qed.

(** ** Concrete pages *)

Lemma distinct_NoDup (l : list nat) : distinct l = true -> NoDup l.
Proof.
  induction l as [|x l IH]; intro H; [constructor |].
  cbn [distinct] in H. apply andb_true_iff in H. destruct H as [Hx Hl].
  constructor; [| now apply IH].
  intro Hin. apply negb_true_iff in Hx.
  assert (T : existsb (Nat.eqb x) l = true).
  { apply existsb_exists. exists x. split; [exact Hin | apply Nat.eqb_refl]. }
  congruence.
Qed.

Lemma bakery_page_unique : Bs4.unique_ids bakery_page.
Proof. apply distinct_NoDup. reflexivity. Qed.

Lemma noscript_page_unique : Bs4.unique_ids noscript_page.
Proof. apply distinct_NoDup. reflexivity. Qed.

(** ** The web text extractor *)

Section ExtractorFacts.

Variable requests_get :
  string -> list (string * string) -> nat -> result Response.
Variable html_parser : string -> result Bs4.node.

(** A returned text is the visible text of the parsed response. *)
Lemma scrape_returns (url : string) (timeout : nat) (out : string) :
  scrape_website_text requests_get html_parser url timeout = Ok out ->
  exists resp soup,
    requests_get url [("User-Agent", user_agent)] timeout = Ok resp
    /\ raise_for_status resp = Ok tt
    /\ html_parser (text resp) = Ok soup
    /\ out = visible_text soup.
Proof.
  unfold scrape_website_text, bind. intro H.
  destruct (requests_get _ _ _) as [resp |]; [| discriminate].
  destruct (raise_for_status resp) as [[] |] eqn:Hs; [| discriminate].
  destruct (html_parser _) as [soup |] eqn:Hp; [| discriminate].
  injection H as <-. exists resp, soup. auto.
Qed.

(** C6. For every page, the string returned by [scrape_website_text] holds
    no three consecutive newline characters. *)
Theorem scrape_no_three_newlines (url : string) (timeout : nat) (out : string) :
  scrape_website_text requests_get html_parser url timeout = Ok out ->
  contains_str (nl ++ nl ++ nl) out = false.
Proof.
  intro H. apply scrape_returns in H.
  destruct H as (resp & soup & _ & _ & _ & ->).
  apply clean_text_no_triple.
Qed.

(** C10. For every page, the string returned by [scrape_website_text] holds
    no two consecutive newline characters and neither starts nor ends with
    white space; it is the joined lines themselves, the substitution of runs
    of three newlines and the final [strip] changing nothing. *)
Theorem scrape_no_blank_line (url : string) (timeout : nat) (out : string) :
  scrape_website_text requests_get html_parser url timeout = Ok out ->
  contains_str (nl ++ nl) out = false
  /\ starts_with_space out = false
  /\ ends_with_space out = false
  /\ exists text,
       out = joined_lines text
       /\ collapse_newlines (joined_lines text) = joined_lines text
       /\ strip (joined_lines text) = joined_lines text.
Proof.
  intro H. apply scrape_returns in H.
  destruct H as (resp & soup & _ & _ & _ & ->).
  unfold visible_text.
  set (text := Bs4.get_text nl _).
  destruct (clean_text_joined_lines text) as [Hc Hs].
  assert (E : clean_text text = joined_lines text).
  { unfold clean_text. now rewrite Hc, Hs. }
  rewrite E. destruct (joined_lines_ok text) as (H1 & H2 & H3).
  repeat split; auto. exists text. auto.
Qed.

(** C5. For every page, the returned text is built from strings that lie
    outside the removed elements: the removal loop leaves the tree with
    every [script], [style], [noscript], [svg], [img], [video], [audio],
    [canvas] and [iframe] element erased together with all it holds, no such
    element remains, and the strings joined into the text are one block of
    the document's strings that have no such ancestor. *)
Theorem scrape_drops_non_content (url : string) (timeout : nat) (out : string) :
  (forall markup soup, html_parser markup = Ok soup -> Bs4.unique_ids soup) ->
  scrape_website_text requests_get html_parser url timeout = Ok out ->
  exists soup strs pre post,
    (exists resp,
        requests_get url [("User-Agent", user_agent)] timeout = Ok resp
        /\ html_parser (text resp) = Ok soup)
    /\ remove_non_content soup
       = Bs4.erase_below
          ["script"; "style"; "noscript"; "svg"; "img"; "video"; "audio";
           "canvas"; "iframe"] soup
    /\ Bs4.find_all
         ["script"; "style"; "noscript"; "svg"; "img"; "video"; "audio";
          "canvas"; "iframe"] (remove_non_content soup) = []
    /\ out = clean_text (join nl strs)
    /\ flat_map
         (Bs4.outside_strings
            ["script"; "style"; "noscript"; "svg"; "img"; "video"; "audio";
             "canvas"; "iframe"]) (Bs4.contents_of soup)
       = (pre ++ strs ++ post)%list.
Proof.
  intros Huniq H. fold non_content. apply scrape_returns in H.
  destruct H as (resp & soup & Hget & _ & Hparse & ->).
  pose proof (loop_is_erase non_content soup (Huniq _ _ Hparse)) as Hloop.
  fold (remove_non_content soup) in Hloop.
  assert (Hstr : Bs4._all_strings (remove_non_content soup)
                 = flat_map (Bs4.outside_strings non_content)
                     (Bs4.contents_of soup)).
  { rewrite Hloop. destruct soup as [ty s | r nm cs]; [reflexivity |].
    apply erase_forest_strings. }
  assert (Hroot : content_root (remove_non_content soup) = remove_non_content soup
                  \/ In (content_root (remove_non_content soup))
                        (Bs4.descendants (remove_non_content soup))).
  { unfold content_root.
    destruct (Bs4.find "main" _) eqn:Em; [right; now apply find_some in Em |].
    destruct (Bs4.find "body" _) eqn:Eb; [right; now apply find_some in Eb |].
    now left. }
  assert (Hblock : exists pre post,
             Bs4._all_strings (remove_non_content soup)
             = (pre ++ Bs4._all_strings (content_root (remove_non_content soup))
                  ++ post)%list).
  { destruct Hroot as [-> | Hin].
    - exists [], []. now rewrite app_nil_r.
    - now apply strings_block_forest. }
  destruct Hblock as (pre & post & Hblock).
  exists soup, (Bs4._all_strings (content_root (remove_non_content soup))),
    pre, post.
  repeat split.
  - exists resp. auto.
  - exact Hloop.
  - rewrite Hloop. destruct soup as [ty s | r nm cs]; [reflexivity |].
    apply erase_forest_no_match.
  - now rewrite <- Hstr.
Qed.

(** C2, as amended. When a [main] element is present once the non-content
    elements are removed, the returned text is the cleaned text of that
    element alone: its strings are those that lie inside one [main] element
    of the document and outside every removed element. *)
Theorem scrape_prefers_main (url : string) (timeout : nat) (resp : Response)
    (soup main : Bs4.node) :
  Bs4.unique_ids soup ->
  requests_get url [("User-Agent", user_agent)] timeout = Ok resp ->
  raise_for_status resp = Ok tt ->
  html_parser (text resp) = Ok soup ->
  Bs4.find "main" (remove_non_content soup) = Some main ->
  scrape_website_text requests_get html_parser url timeout
  = Ok (clean_text (Bs4.get_text nl main))
  /\ exists i cs0,
       In (Bs4.Tag i "main" cs0) (Bs4.descendants soup)
       /\ Bs4._all_strings main
          = flat_map (Bs4.outside_strings non_content) cs0.
Proof.
  intros Huniq Hget Hstatus Hparse Hmain. split.
  - unfold scrape_website_text, bind.
    rewrite Hget, Hstatus, Hparse. unfold visible_text, content_root.
    now rewrite Hmain.
  - pose proof (loop_is_erase non_content soup Huniq) as Hloop.
    fold (remove_non_content soup) in Hloop. rewrite Hloop in Hmain.
    apply find_some in Hmain. destruct Hmain as (Hin & i & cs' & ->).
    destruct soup as [ty s | r nm cs]; [contradiction |].
    apply erase_origin_forest in Hin. destruct Hin as (cs0 & Hin & ->).
    exists i, cs0. split; [exact Hin |].
    apply erase_forest_strings.
Qed.

End ExtractorFacts.

Lemma scrape_no_three_newlines_witness :
  contains_str (nl ++ nl ++ nl) (visible_text bakery_page) = false.
Proof.
  apply (scrape_no_three_newlines (serve 200 "page") (parsed_as bakery_page)
           "https://example.com" 12).
  reflexivity.
Defined.

Lemma scrape_no_blank_line_witness :
  contains_str (nl ++ nl) (visible_text bakery_page) = false
  /\ starts_with_space (visible_text bakery_page) = false
  /\ ends_with_space (visible_text bakery_page) = false
  /\ exists text,
       visible_text bakery_page = joined_lines text
       /\ collapse_newlines (joined_lines text) = joined_lines text
       /\ strip (joined_lines text) = joined_lines text.
Proof.
  apply (scrape_no_blank_line (serve 200 "page") (parsed_as bakery_page)
           "https://example.com" 12).
  reflexivity.
Defined.

Lemma scrape_drops_non_content_witness :
  exists soup strs pre post,
    (exists resp,
        serve 200 "page" "https://example.com" [("User-Agent", user_agent)] 12
        = Ok resp
        /\ parsed_as bakery_page (text resp) = Ok soup)
    /\ remove_non_content soup
       = Bs4.erase_below
          ["script"; "style"; "noscript"; "svg"; "img"; "video"; "audio";
           "canvas"; "iframe"] soup
    /\ Bs4.find_all
         ["script"; "style"; "noscript"; "svg"; "img"; "video"; "audio";
          "canvas"; "iframe"] (remove_non_content soup) = []
    /\ visible_text bakery_page = clean_text (join nl strs)
    /\ flat_map
         (Bs4.outside_strings
            ["script"; "style"; "noscript"; "svg"; "img"; "video"; "audio";
             "canvas"; "iframe"]) (Bs4.contents_of soup)
       = (pre ++ strs ++ post)%list.
Proof.
  apply (scrape_drops_non_content (serve 200 "page") (parsed_as bakery_page)
           "https://example.com" 12).
  - intros markup soup H. injection H as <-. exact bakery_page_unique.
  - reflexivity.
Defined.

(** The fixture of the specification: the script text is absent, the text
    of [main] is what is returned. *)
Example bakery_page_text :
  visible_text bakery_page = "Fresh bread"
  /\ contains_str "alert(1)" (visible_text bakery_page) = false.
Proof. split; reflexivity. Qed.

Lemma scrape_prefers_main_witness :
  scrape_website_text (serve 200 "page") (parsed_as bakery_page)
    "https://example.com" 12
  = Ok (clean_text (Bs4.get_text nl
          (Bs4.Tag 5 "main" [Bs4.Str Bs4.NavigableString " Fresh bread "])))
  /\ exists i cs0,
       In (Bs4.Tag i "main" cs0) (Bs4.descendants bakery_page)
       /\ Bs4._all_strings
            (Bs4.Tag 5 "main" [Bs4.Str Bs4.NavigableString " Fresh bread "])
          = flat_map (Bs4.outside_strings non_content) cs0.
Proof.
  apply (scrape_prefers_main (serve 200 "page") (parsed_as bakery_page)
           "https://example.com" 12 (mkResponse 200 "page") bakery_page).
  - exact bakery_page_unique.
  - reflexivity.
  - reflexivity.
  - reflexivity.
  - reflexivity.
Defined.

(** C2, as stated, fails on a page whose [main] element sits inside a
    [noscript] element: the document holds a [main] element whose text is
    [INSIDE], and the returned text is [OUTSIDE]. *)
Lemma main_inside_noscript_ignored :
  Bs4.find "main" noscript_page
  = Some (Bs4.Tag 2 "main" [Bs4.Str Bs4.NavigableString "INSIDE"])
  /\ Bs4.get_text nl (Bs4.Tag 2 "main" [Bs4.Str Bs4.NavigableString "INSIDE"])
     = "INSIDE"
  /\ scrape_website_text (serve 200 "page") (parsed_as noscript_page)
       "https://example.com" 12 = Ok "OUTSIDE"
  /\ contains_str "OUTSIDE" "INSIDE" = false.
Proof. repeat split; reflexivity. Qed.

(** ** [urllib.parse] *)

Section UrllibFacts.
Import Urllib.
Variable ip_address : string -> result ip_version.

Lemma contains_take (c : ascii) (n : nat) (s : string) :
  contains c s = false -> contains c (take n s) = false.
Proof.
  intro H. rewrite <- (take_drop n s), contains_app in H.
  now apply orb_false_iff in H.
Qed.

Lemma contains_drop (c : ascii) (n : nat) (s : string) :
  contains c s = false -> contains c (drop n s) = false.
Proof.
  intro H. rewrite <- (take_drop n s), contains_app in H.
  now apply orb_false_iff in H.
Qed.

Lemma contains_lstrip (c : ascii) (p : ascii -> bool) (s : string) :
  contains c s = false -> contains c (lstrip_with p s) = false.
Proof.
  intro H. destruct (lstrip_suffix p s) as [a Ha].
  rewrite Ha, contains_app in H. now apply orb_false_iff in H.
Qed.

Lemma contains_strip (c : ascii) (s : string) :
  contains c s = false -> contains c (strip s) = false.
Proof.
  intro H. destruct (strip_infix s) as (a & b & Hs).
  rewrite Hs, !contains_app in H.
  apply orb_false_iff in H. destruct H as [_ H].
  now apply orb_false_iff in H.
Qed.

Lemma contains_remove (c d : ascii) (s : string) :
  contains c s = false -> contains c (remove d s) = false.
Proof.
  induction s as [|x s IH]; [reflexivity |].
  cbn [contains remove]. intro H. apply orb_false_iff in H.
  destruct H as [Hx Hs]. destruct (Ascii.eqb d x); [now apply IH |].
  cbn [contains]. now rewrite Hx, IH.
Qed.

Lemma contains_removed (c : ascii) (s : string) : contains c (remove c s) = false.
Proof.
  induction s as [|x s IH]; [reflexivity |].
  cbn [remove]. destruct (Ascii.eqb c x) eqn:E; [exact IH |].
  cbn [contains]. now rewrite E, IH.
Qed.

Lemma find_none (c : ascii) (s : string) :
  find c s = None -> contains c s = false.
Proof.
  induction s as [|x s IH]; [reflexivity |].
  cbn [find contains]. destruct (Ascii.eqb c x); [discriminate |].
  destruct (find c s); [discriminate |]. intros _. now apply IH.
Qed.

Lemma find_take (c : ascii) (s : string) :
  forall i k, find c s = Some i -> k <= i -> contains c (take k s) = false.
Proof.
  induction s as [|x s IH]; intros i k H Hk; [now destruct k |].
  cbn [find] in H. destruct k as [|k]; [reflexivity |].
  cbn [take contains]. destruct (Ascii.eqb c x); [injection H as <-; lia |].
  destruct (find c s) as [j |] eqn:E; [| discriminate].
  injection H as <-. cbn [orb]. apply (IH j); [reflexivity | lia].
Qed.

Lemma opt_min_le (delim : nat) (w : option nat) : opt_min delim w <= delim.
Proof. destruct w; cbn; lia. Qed.

Lemma netloc_delimiter (c : ascii) (url : string) (start delim : nat) :
  delim <= opt_min (String.length url) (find_from c start url)
  \/ (exists d, delim <= opt_min d (find_from c start url)) ->
  contains c (take (delim - start) (drop start url)) = false.
Proof.
  intro H. unfold find_from in H.
  destruct (find c (drop start url)) as [i |] eqn:E.
  - apply (find_take _ _ i); [exact E |].
    cbn [opt_min] in H. destruct H as [H | [d H]]; lia.
  - apply contains_take. now apply find_none.
Qed.

(** The host part cut by [_splitnetloc] holds no [/], [?] or [#]. *)
Lemma _splitnetloc_clean (url : string) (start : nat) :
  let netloc := fst (_splitnetloc url start) in
  contains "/" netloc = false
  /\ contains "?" netloc = false
  /\ contains "#" netloc = false.
Proof.
  unfold _splitnetloc. cbn [fst].
  set (d0 := String.length url).
  set (d1 := opt_min d0 (find_from "/" start url)).
  set (d2 := opt_min d1 (find_from "?" start url)).
  set (d3 := opt_min d2 (find_from "#" start url)).
  pose proof (opt_min_le d1 (find_from "?" start url)) as H2.
  pose proof (opt_min_le d2 (find_from "#" start url)) as H3.
  fold d2 in H2. fold d3 in H3.
  repeat split; apply netloc_delimiter.
  - left. fold d0. fold d1. lia.
  - right. exists d1. fold d2. lia.
  - right. exists d2. fold d3. lia.
Qed.

Lemma nfkc_char_delimiter (c d : ascii) :
  In d ["/"; "?"; "#"; "@"; ":"]%char ->
  existsb (N.eqb (ord d)) (nfkc_char c) = Ascii.eqb d c.
Proof.
  intro H. cbn [In] in H.
  destruct H as [<- | [<- | [<- | [<- | [<- | []]]]]];
    destruct c as [[] [] [] [] [] [] [] []]; reflexivity.
Qed.

Lemma nfkc_delimiter (s : string) (d : ascii) :
  In d ["/"; "?"; "#"; "@"; ":"]%char ->
  existsb (N.eqb (ord d)) (nfkc s) = contains d s.
Proof.
  intro H. induction s as [|c s IH]; [reflexivity |].
  cbn [nfkc contains]. now rewrite existsb_app, nfkc_char_delimiter, IH.
Qed.

(** On the host part cut by [_splitnetloc], [_checknetloc] never raises. *)
Lemma _checknetloc_returns (netloc : string) :
  contains "/" netloc = false ->
  _checknetloc netloc = Ok tt.
Proof.
  intro H. unfold _checknetloc.
  destruct (is_empty netloc || forallb isascii netloc); [reflexivity |].
  set (n := remove "?" (remove "#" (remove ":" (remove "@" netloc)))).
  destruct (code_points_eqb (code_points n) (nfkc n)); [reflexivity |].
  assert (Hn : forall d, In d ["/"; "?"; "#"; "@"; ":"]%char ->
                         contains d n = false).
  { intros d Hd. cbn [In] in Hd. subst n.
    destruct Hd as [<- | [<- | [<- | [<- | [<- | []]]]]];
      repeat first [apply contains_removed | apply contains_remove];
      exact H. }
  cbn [existsb]. rewrite !nfkc_delimiter by (cbn [In]; tauto).
  rewrite !Hn by (cbn [In]; tauto). reflexivity.
Qed.

Lemma split_scheme_suffix (url scheme rest : string) :
  split_scheme url = (scheme, rest) -> exists k, rest = drop k url.
Proof.
  unfold split_scheme.
  destruct (find ":" url) as [[|i] |]; destruct url as [|c0 url'];
    try (intros [= <- <-]; now exists 0).
  destruct (is_ascii_alpha c0 && forallb scheme_chars _);
    intros [= <- <-]; [now exists (S (S i)) | now exists 0].
Qed.

(** Without a bracket in the text, [urlsplit] and [urlparse] return. *)
Lemma urlsplit_returns (url : string) :
  contains "[" url = false ->
  contains "]" url = false ->
  exists sp, urlsplit ip_address url = Ok sp.
Proof.
  intros Hl Hr. unfold urlsplit.
  set (u1 := remove LF (remove CR (remove TAB
               (lstrip_with c0_control_or_space url)))).
  assert (H1 : contains "[" u1 = false /\ contains "]" u1 = false).
  { subst u1. split; repeat apply contains_remove;
      now apply contains_lstrip. }
  destruct H1 as [H1l H1r].
  destruct (split_scheme u1) as [scheme u2] eqn:E.
  assert (H2 : contains "[" u2 = false /\ contains "]" u2 = false).
  { destruct (split_scheme_suffix _ _ _ E) as [k ->].
    split; now apply contains_drop. }
  destruct H2 as [H2l H2r].
  destruct (String.eqb (take 2 u2) "//").
  - pose proof (_splitnetloc_clean u2 2) as Hclean.
    assert (Hb : contains "[" (fst (_splitnetloc u2 2)) = false
                 /\ contains "]" (fst (_splitnetloc u2 2)) = false).
    { unfold _splitnetloc. cbn [fst].
      split; now apply contains_take, contains_drop. }
    destruct (_splitnetloc u2 2) as [netloc rest]. cbn [fst] in *.
    destruct Hb as [-> ->]. destruct Hclean as (Hslash & _ & _).
    cbn [andb orb negb bind].
    rewrite (_checknetloc_returns _ Hslash).
    destruct (contains "#" rest); [destruct (partition "#" rest) as [[a ?] b] |];
      match goal with
      | |- context [contains "?" ?x] =>
          destruct (contains "?" x);
          [destruct (partition "?" x) as [[a' ?] b'] |]
      end; cbn [bind]; eauto.
  - cbn [bind].
    destruct (contains "#" u2); [destruct (partition "#" u2) as [[a ?] b] |];
      match goal with
      | |- context [contains "?" ?x] =>
          destruct (contains "?" x);
          [destruct (partition "?" x) as [[a' ?] b'] |]
      end; cbn [bind _checknetloc is_empty orb]; eauto.
Qed.

Lemma urlparse_returns (url : string) :
  contains "[" url = false ->
  contains "]" url = false ->
  exists parsed, urlparse ip_address url = Ok parsed.
Proof.
  intros Hl Hr. unfold urlparse.
  destruct (urlsplit_returns url Hl Hr) as [sp ->]. cbn [bind].
  destruct (existsb _ _ && _); [destruct (_splitparams _) |]; eauto.
Qed.

(** Without a bracket in the input, [normalize_url] returns. *)
Lemma normalize_url_returns (raw : string) :
  contains "[" raw = false ->
  contains "]" raw = false ->
  exists res, normalize_url ip_address raw = Ok res.
Proof.
  intros Hl Hr. unfold normalize_url. rewrite or_else_empty.
  destruct (is_empty (strip raw)); [eauto |].
  set (url := if negb (re_match_scheme (strip raw)) then _ else _).
  assert (H : contains "[" url = false /\ contains "]" url = false).
  { subst url. destruct (negb _); [rewrite !contains_app |];
      split; try apply orb_false_iff; try split;
      try reflexivity; now apply contains_strip. }
  destruct H as [Hul Hur].
  destruct (urlparse_returns url Hul Hur) as [parsed ->]. cbn [bind].
  destruct (is_empty (netloc parsed)); eauto.
Qed.

End UrllibFacts.

(** ** The URL normalizer *)

Section NormalizerFacts.

Variable ip_address : string -> result Urllib.ip_version.

Lemma imatch_lower (pattern s : string) :
  imatch pattern s = startswith pattern (lower s).
Proof.
  revert s. induction pattern as [|p pattern IH]; intro s; [reflexivity |].
  destruct s as [|c s]; [reflexivity |].
  cbn [imatch lower startswith]. now rewrite IH, Ascii.eqb_sym.
Qed.

(** The regular expression of the script tests [has_scheme]. *)
Lemma re_match_scheme_spec (url : string) :
  re_match_scheme url = has_scheme url.
Proof.
  unfold re_match_scheme, has_scheme. rewrite !imatch_lower. apply orb_comm.
Qed.

Lemma has_scheme_prepended (url : string) : has_scheme ("https://" ++ url) = true.
Proof. unfold has_scheme. apply orb_true_iff. right. reflexivity. Qed.

Lemma has_scheme_nonempty (url : string) :
  has_scheme url = true -> is_empty url = false.
Proof. now destruct url. Qed.






(** C3. [normalize_url] is to return a string for every input and never
    to raise. The code does not: an unmatched bracket in the host makes
    [urlparse] raise [ValueError], and [normalize_url] lets the exception
    through instead of answering with the empty string. (With no bracket in
    the input it does return: [normalize_url_returns].) *)
Theorem normalize_url_unmatched_bracket :
  normalize_url ip_address "http://[::1" = Raise ValueError
  /\ normalize_url ip_address "[" = Raise ValueError.
Proof. split; reflexivity. Qed.

End NormalizerFacts.





(** ** The prompt composer and the completion client *)

Section ClientFacts.

Variable responses_create :
  string -> string -> list (string * string) -> result (option string).

(** The request that [call_openai] sends. *)
Lemma call_openai_request (api_key business_text promo_details : string) :
  call_openai responses_create api_key business_text promo_details
  = (resp <- responses_create api_key "gpt-4o"
               (request_input
                  (build_user_prompt (composed_business_text business_text)
                     (strip promo_details))) ;;
     Ok (strip (text_or_empty resp))).
Proof.
  unfold call_openai, composed_business_text. now rewrite !or_else_empty.
Qed.

End ClientFacts.

(** A business text of 7001 characters reaches the prompt as its first 7000
    characters followed by the marker; one of 7000 characters is unchanged. *)
Example long_business_text_cut :
  let a := String "a" EmptyString in
  composed_business_text (Nat.iter 7001 (append a) EmptyString)
  = Nat.iter 7000 (append a) EmptyString ++ truncation_marker
  /\ composed_business_text (Nat.iter 7000 (append a) EmptyString)
     = Nat.iter 7000 (append a) EmptyString.
Proof. vm_compute. split; reflexivity. Qed.

(** ** The generation flow *)

Section GenerateFacts.

Variable ip_address : string -> result Urllib.ip_version.
Variable requests_get :
  string -> list (string * string) -> nat -> result Response.
Variable html_parser : string -> result Bs4.node.
Variable responses_create :
  string -> string -> list (string * string) -> result (option string).

Ltac stopped_early Hrun Hin :=
  injection Hrun as <- <-; cbn [In app] in Hin;
  repeat (destruct Hin as [Hin | Hin]; [discriminate Hin |]);
  contradiction.

(** C9. In a run of the generation flow that scraped [url]: when scraping
    raised an exception or returned fewer than 300 characters, the fallback
    warning is shown; with an empty manual description (after trimming) the
    run then halts and has made no call to the completion service, and
    otherwise the business text handed on is the trimmed manual
    description. *)
Theorem scrape_failure_takes_fallback
    (api_key website_url_raw promo_details manual_description url : string)
    (out : flow unit) (tr : list event) :
  run ip_address requests_get html_parser responses_create true
      api_key website_url_raw promo_details manual_description = (out, tr) ->
  In (Scrape url) tr ->
  ((exists e, scrape_website_text requests_get html_parser url 12 = Raise e)
   \/ (exists scraped,
         scrape_website_text requests_get html_parser url 12 = Ok scraped
         /\ String.length scraped < 300)) ->
  In (StWarning fallback_warning) tr
  /\ (strip manual_description = EmptyString ->
      out = Stopped /\ existsb is_completion tr = false)
  /\ (strip manual_description <> EmptyString ->
      In (Completion api_key (strip manual_description) promo_details) tr).
Proof.
  intros Hrun Hin Hfail.
  unfold run, on_generate in Hrun.
  unfold and_then at 1 in Hrun.
  destruct (is_empty api_key).
  { unfold and_then, emit, st_stop in Hrun. stopped_early Hrun Hin. }
  unfold pure at 1 in Hrun. unfold and_then at 1 in Hrun.
  unfold uncaught in Hrun.
  destruct (normalize_url ip_address website_url_raw) as [website_url | e].
  2: { stopped_early Hrun Hin. }
  unfold and_then at 1 in Hrun.
  destruct (is_empty website_url).
  { unfold and_then, emit, st_stop in Hrun. stopped_early Hrun Hin. }
  unfold pure at 1 in Hrun. unfold and_then at 1 in Hrun.
  destruct (is_empty (strip promo_details)).
  { unfold and_then, emit, st_stop in Hrun. stopped_early Hrun Hin. }
  unfold pure at 1 in Hrun.
  unfold try_scrape, try_call_openai in Hrun.
  unfold and_then, emit, pure, st_stop in Hrun. cbn [app] in Hrun.
  set (scraped := scrape_website_text requests_get html_parser website_url 12)
    in Hrun.
  assert (Hfallback :
            (url = website_url ->
             match scraped with
             | Ok t => (String.length t <? 300)%nat = true
             | Raise _ => True
             end)).
  { intros ->. fold scraped in Hfail.
    destruct Hfail as [[e He] | (t & Ht & Hlen)]; rewrite ?He, ?Ht; [exact I |].
    now apply Nat.ltb_lt. }
  set (answer := call_openai responses_create api_key) in Hrun.
  destruct scraped as [t | e] eqn:Es.
  - destruct (String.length t <? 300)%nat eqn:Hlen.
    + destruct (is_empty (strip manual_description)) eqn:Em.
      * injection Hrun as <- <-. split; [| split].
        -- right. now left.
        -- intros _. split; reflexivity.
        -- intro H. apply is_empty_true in Em. contradiction.
      * assert (Hc : In (Completion api_key (strip manual_description)
                           promo_details) tr
                     /\ In (StWarning fallback_warning) tr).
        { destruct (answer (strip manual_description) promo_details)
            as [email | e];
            [destruct (is_empty email) |];
            injection Hrun as <- <-; cbn [In]; auto. }
        destruct Hc as [Hc Hw]. split; [exact Hw | split].
        -- intro H. apply is_empty_true in H. congruence.
        -- intros _. exact Hc.
    + exfalso.
      destruct (answer t promo_details) as [email | e];
        [destruct (is_empty email) |];
        injection Hrun as <- <-; cbn [In] in Hin;
        (destruct Hin as [Hin | Hin];
         [injection Hin as Hu; symmetry in Hu;
          discriminate (Hfallback Hu) |]);
        repeat (destruct Hin as [Hin | Hin]; [discriminate Hin |]);
        contradiction.
  - destruct (is_empty (strip manual_description)) eqn:Em.
    + injection Hrun as <- <-. split; [| split].
      * right. now left.
      * intros _. split; reflexivity.
      * intro H. apply is_empty_true in Em. contradiction.
    + assert (Hc : In (Completion api_key (strip manual_description)
                         promo_details) tr
                   /\ In (StWarning fallback_warning) tr).
      { destruct (answer (strip manual_description) promo_details)
          as [email | e'];
          [destruct (is_empty email) |];
          injection Hrun as <- <-; cbn [In]; auto. }
      destruct Hc as [Hc Hw]. split; [exact Hw | split].
      * intro H. apply is_empty_true in H. congruence.
      * intros _. exact Hc.
Qed.

End GenerateFacts.

Lemma scrape_failure_takes_fallback_witness :
  In (StWarning fallback_warning)
     [Scrape "https://example.com"; StWarning fallback_warning]
  /\ (strip "  " = EmptyString ->
      @Stopped unit = Stopped
      /\ existsb is_completion
           [Scrape "https://example.com"; StWarning fallback_warning] = false)
  /\ (strip "  " <> EmptyString ->
      In (Completion "sk-test" (strip "  ") "20% off")
         [Scrape "https://example.com"; StWarning fallback_warning]).
Proof.
  apply (scrape_failure_takes_fallback loopback_only unreachable
           (parsed_as bakery_page) silent_service
           "sk-test" "example.com" "20% off" "  " "https://example.com").
  - reflexivity.
  - left. reflexivity.
  - left. exists RequestException. reflexivity.
Defined.

(** The same run with a manual description goes on to the completion
    service, which receives the trimmed description. *)
Example fallback_with_description :
  run loopback_only unreachable (parsed_as bakery_page)
      (fun _ _ _ => Ok (Some "Subject: Fresh bread")) true
      "sk-test" "example.com" "20% off" " A bakery. "
  = (Next tt,
     [Scrape "https://example.com";
      StWarning fallback_warning;
      Completion "sk-test" "A bakery." "20% off";
      StSuccess "Email generated!";
      StTextArea "Generated Email (copy this)" "Subject: Fresh bread" 320;
      StDownloadButton "Download as .txt" "Subject: Fresh bread"
        "promotional_email.txt" "text/plain"]).
Proof. reflexivity. Qed.

(** * Further properties *)

(** ** The whitespace clean-up *)

Section CleanTextFacts.

Lemma length_app (a b : string) :
  String.length (a ++ b) = String.length a + String.length b.
Proof. induction a as [|c a IH]; cbn; [reflexivity | now rewrite IH]. Qed.

Lemma linebreak_isspace (c : ascii) : is_linebreak c = true -> isspace c = true.
Proof. destruct c as [[] [] [] [] [] [] [] []]; cbn; congruence. Qed.

Lemma non_space_app (a b : string) :
  non_space (a ++ b) = non_space a ++ non_space b.
Proof.
  induction a as [|c a IH]; [reflexivity |].
  cbn [append non_space]. destruct (isspace c); cbn [append]; now rewrite IH.
Qed.

Lemma non_space_lstrip (s : string) :
  non_space (lstrip_with isspace s) = non_space s.
Proof.
  induction s as [|c s IH]; [reflexivity |].
  cbn [lstrip_with non_space]. destruct (isspace c) eqn:E; [exact IH |].
  cbn [non_space]. now rewrite E.
Qed.

Lemma non_space_rstrip (s : string) :
  non_space (rstrip_with isspace s) = non_space s.
Proof.
  induction s as [|c s IH]; [reflexivity |].
  cbn [rstrip_with non_space].
  destruct (rstrip_with isspace s) as [|d r].
  - cbn [non_space] in IH. rewrite <- IH.
    destruct (isspace c) eqn:E; [reflexivity |].
    cbn [non_space]. now rewrite E.
  - cbn [non_space] in *. now rewrite IH.
Qed.

Lemma non_space_strip (s : string) : non_space (strip s) = non_space s.
Proof. unfold strip. now rewrite non_space_rstrip, non_space_lstrip. Qed.

Lemma flatten_cons (x : string) (l : list string) :
  flatten (x :: l) = x ++ flatten l.
Proof. reflexivity. Qed.

Lemma non_space_last_line (cur : string) :
  flatten (map non_space (match cur with
                          | EmptyString => []
                          | _ => [cur]
                          end))
  = non_space cur.
Proof.
  destruct cur; [reflexivity |].
  cbn [map]. rewrite flatten_cons. apply str_app_nil_r.
Qed.

Lemma non_space_splitlines_from (n : nat) :
  forall s cur,
    String.length s <= n ->
    flatten (map non_space (splitlines_from cur s))
    = non_space cur ++ non_space s.
Proof.
  induction n as [|n IH]; intros s cur Hn.
  - destruct s; [| cbn in Hn; lia].
    cbn [splitlines_from non_space].
    now rewrite non_space_last_line, str_app_nil_r.
  - destruct s as [|c s].
    + cbn [splitlines_from non_space].
      now rewrite non_space_last_line, str_app_nil_r.
    + cbn [String.length] in Hn. cbn [splitlines_from].
      destruct (is_linebreak c) eqn:Hc.
      * cbn [map]. rewrite flatten_cons.
        cbn [non_space]. rewrite (linebreak_isspace _ Hc). f_equal.
        destruct s as [|d s']; [reflexivity |].
        destruct (Ascii.eqb c CR && Ascii.eqb d LF) eqn:E.
        -- apply andb_true_iff in E. destruct E as [_ E].
           apply Ascii.eqb_eq in E. subst d.
           rewrite IH by (cbn in Hn; lia). reflexivity.
        -- rewrite IH by lia. reflexivity.
      * rewrite IH by lia. rewrite non_space_app, str_app_assoc.
        f_equal. cbn [non_space]. destruct (isspace c); reflexivity.
Qed.

Lemma non_space_join (lines : list string) :
  non_space (join nl lines) = flatten (map non_space lines).
Proof.
  induction lines as [|x [|y rest] IH].
  - reflexivity.
  - cbn. now rewrite str_app_nil_r.
  - change (join nl (x :: y :: rest)) with (x ++ nl ++ join nl (y :: rest)).
    rewrite !non_space_app, IH. reflexivity.
Qed.

Lemma non_space_filter (lines : list string) :
  flatten (map non_space (filter (fun ln => negb (is_empty ln)) lines))
  = flatten (map non_space lines).
Proof.
  induction lines as [|x lines IH]; [reflexivity |].
  cbn [filter]. destruct x as [|c x]; cbn [is_empty negb]; [exact IH |].
  cbn [map]. rewrite !flatten_cons. now rewrite IH.
Qed.

Lemma non_space_map_strip (lines : list string) :
  map non_space (map strip lines) = map non_space lines.
Proof.
  rewrite map_map. apply map_ext. intro l. apply non_space_strip.
Qed.

Lemma non_space_joined_lines (text : string) :
  non_space (joined_lines text) = non_space text.
Proof.
  unfold joined_lines, splitlines.
  rewrite non_space_join, non_space_filter, non_space_map_strip.
  now rewrite (non_space_splitlines_from (String.length text)).
Qed.

Lemma clean_text_is_joined_lines (text : string) :
  clean_text text = joined_lines text.
Proof.
  unfold clean_text. destruct (clean_text_joined_lines text) as [-> ->].
  reflexivity.
Qed.

(** The clean-up touches white space only: the other characters of the
    text come out the same, in the same order. *)
Theorem clean_text_keeps_non_space (text : string) :
  non_space (clean_text text) = non_space text.
Proof. rewrite clean_text_is_joined_lines. apply non_space_joined_lines. Qed.

Lemma non_space_empty (s : string) :
  non_space s = EmptyString <-> forallb isspace s = true.
Proof.
  induction s as [|c s IH]; [cbn; tauto |].
  cbn [non_space forallb]. destruct (isspace c); cbn [andb]; [exact IH |].
  split; discriminate.
Qed.

Lemma non_space_trimmed (s : string) :
  starts_with_space s = false -> s <> EmptyString ->
  non_space s <> EmptyString.
Proof.
  destruct s as [|c s]; [intros _ H; now contradiction H |].
  cbn [starts_with_space non_space]. intros -> _. discriminate.
Qed.

(** The cleaned text is empty exactly when the text is white space only. *)
Theorem clean_text_empty (text : string) :
  clean_text text = EmptyString <-> forallb isspace text = true.
Proof.
  rewrite clean_text_is_joined_lines, <- non_space_empty,
    <- non_space_joined_lines.
  split.
  - now intros ->.
  - intro H. destruct (joined_lines_ok text) as (_ & Hs & _).
    destruct (joined_lines text) as [|c j] eqn:E; [reflexivity |].
    exfalso. apply (non_space_trimmed _ Hs); [discriminate | exact H].
Qed.

Lemma forallb_app (p : ascii -> bool) (a b : string) :
  forallb p (a ++ b) = forallb p a && forallb p b.
Proof.
  induction a as [|c a IH]; [reflexivity |].
  cbn [append forallb]. now rewrite IH, andb_assoc.
Qed.

Lemma splitlines_from_no_break (n : nat) :
  forall s cur,
    String.length s <= n ->
    no_linebreak cur = true ->
    Forall (fun l => no_linebreak l = true) (splitlines_from cur s).
Proof.
  induction n as [|n IH]; intros s cur Hn Hcur.
  - destruct s; [| cbn in Hn; lia].
    cbn. destruct cur; constructor; auto.
  - destruct s as [|c s].
    + cbn. destruct cur; constructor; auto.
    + cbn [String.length] in Hn. cbn [splitlines_from].
      destruct (is_linebreak c) eqn:Hc.
      * constructor; [exact Hcur |].
        destruct s as [|d s']; [constructor |].
        destruct (Ascii.eqb c CR && Ascii.eqb d LF).
        -- apply IH; [cbn in Hn; lia | reflexivity].
        -- apply IH; [lia | reflexivity].
      * apply IH; [lia |].
        unfold no_linebreak in *. rewrite forallb_app, Hcur.
        cbn [forallb]. now rewrite Hc.
Qed.

Lemma strip_no_break (l : string) :
  no_linebreak l = true -> no_linebreak (strip l) = true.
Proof.
  unfold no_linebreak. intro H. destruct (strip_infix l) as (a & b & Hl).
  rewrite Hl, !forallb_app in H.
  apply andb_true_iff in H. destruct H as [_ H].
  now apply andb_true_iff in H.
Qed.

Lemma clean_lines_ok (text : string) :
  Forall clean_line
    (filter (fun ln => negb (is_empty ln)) (map strip (splitlines text))).
Proof.
  apply Forall_forall. intros l Hl.
  apply filter_In in Hl. destruct Hl as [Hin Hne].
  apply in_map_iff in Hin. destruct Hin as (l0 & <- & Hin0).
  assert (H0 : no_linebreak l0 = true).
  { pose proof (splitlines_from_no_break (String.length text) text EmptyString
                  (le_n _) eq_refl) as HF.
    rewrite Forall_forall in HF. now apply HF. }
  repeat split.
  - apply is_empty_false. now apply negb_true_iff.
  - now apply strip_no_break.
  - unfold strip. apply rstrip_starts, lstrip_starts.
  - apply rstrip_ends.
Qed.

Lemma splitlines_from_app (x : string) :
  forall cur s,
    no_linebreak x = true ->
    splitlines_from cur (x ++ s) = splitlines_from (cur ++ x) s.
Proof.
  induction x as [|c x IH]; intros cur s H.
  - now rewrite str_app_nil_r.
  - unfold no_linebreak in H. cbn [forallb] in H.
    apply andb_true_iff in H. destruct H as [Hc Hx].
    apply negb_true_iff in Hc.
    cbn [append splitlines_from]. rewrite Hc, (IH _ _ Hx).
    now rewrite str_app_assoc.
Qed.

(** Splitting the joined lines gives the lines back. *)
Lemma splitlines_join (lines : list string) :
  Forall clean_line lines -> splitlines (join nl lines) = lines.
Proof.
  unfold splitlines.
  induction 1 as [|x rest (Hne & Hbr & _ & _) Hrest IH]; [reflexivity |].
  destruct rest as [|y rest'].
  - cbn [join]. rewrite <- (str_app_nil_r x) at 1.
    rewrite splitlines_from_app by exact Hbr.
    cbn [append splitlines_from]. destruct x; [contradiction | reflexivity].
  - change (join nl (x :: y :: rest')) with (x ++ nl ++ join nl (y :: rest')).
    rewrite splitlines_from_app by exact Hbr.
    cbn [nl append]. cbn [splitlines_from].
    change (is_linebreak LF) with true. cbv iota. f_equal.
    change (Ascii.eqb LF CR) with false. cbn [andb].
    destruct (join nl (y :: rest')); exact IH.
Qed.

Lemma clean_lines_fixed (lines : list string) :
  Forall clean_line lines ->
  filter (fun ln => negb (is_empty ln)) (map strip lines) = lines.
Proof.
  induction 1 as [|x rest (Hne & _ & Hs & He) _ IH]; [reflexivity |].
  cbn [map filter]. rewrite (strip_id _ Hs He).
  destruct x; [contradiction |]. cbn [is_empty negb]. now rewrite IH.
Qed.

Lemma joined_lines_idempotent (text : string) :
  joined_lines (joined_lines text) = joined_lines text.
Proof.
  unfold joined_lines at 1 2.
  pose proof (clean_lines_ok text) as HL.
  set (L := filter _ (map strip (splitlines text))) in *.
  now rewrite (splitlines_join _ HL), (clean_lines_fixed _ HL).
Qed.

(** Cleaning a cleaned text changes nothing. *)
Theorem clean_text_idempotent (text : string) :
  clean_text (clean_text text) = clean_text text.
Proof.
  rewrite !clean_text_is_joined_lines. apply joined_lines_idempotent.
Qed.

End CleanTextFacts.

(** ** The content root *)

Lemma plain_page_unique : Bs4.unique_ids plain_page.
Proof. apply distinct_NoDup. reflexivity. Qed.

Lemma bakery_page_variant_unique : Bs4.unique_ids bakery_page_variant.
Proof. apply distinct_NoDup. reflexivity. Qed.

Lemma remove_non_content_erases (soup : Bs4.node) :
  Bs4.unique_ids soup ->
  remove_non_content soup = Bs4.erase_below non_content soup.
Proof. intro H. unfold remove_non_content. now apply loop_is_erase. Qed.

(** A tag found in the tree after the removal loop is a tag of the
    document, and its strings are the document's strings below that tag
    that lie outside every removed element. *)
Lemma found_after_removal (name : string) (soup found : Bs4.node) :
  Bs4.unique_ids soup ->
  Bs4.find name (remove_non_content soup) = Some found ->
  exists i cs0,
    In (Bs4.Tag i name cs0) (Bs4.descendants soup)
    /\ Bs4._all_strings found
       = flat_map (Bs4.outside_strings non_content) cs0.
Proof.
  intros Huniq Hfind. rewrite (remove_non_content_erases _ Huniq) in Hfind.
  apply find_some in Hfind. destruct Hfind as (Hin & i & cs' & ->).
  destruct soup as [ty s | r nm cs]; [contradiction |].
  apply erase_origin_forest in Hin. destruct Hin as (cs0 & Hin & ->).
  exists i, cs0. split; [exact Hin | apply erase_forest_strings].
Qed.

(** With no [main] element left after the removal, the text is that of the
    [body] element alone: the strings inside one [body] element of the
    document and outside every removed element. *)
Theorem visible_text_of_body (soup body : Bs4.node) :
  Bs4.unique_ids soup ->
  Bs4.find "main" (remove_non_content soup) = None ->
  Bs4.find "body" (remove_non_content soup) = Some body ->
  exists i cs0,
    In (Bs4.Tag i "body" cs0) (Bs4.descendants soup)
    /\ visible_text soup
       = clean_text
           (join nl (flat_map (Bs4.outside_strings non_content) cs0)).
Proof.
  intros Huniq Hmain Hbody.
  destruct (found_after_removal _ _ _ Huniq Hbody) as (i & cs0 & Hin & Hstr).
  exists i, cs0. split; [exact Hin |].
  unfold visible_text, content_root. rewrite Hmain, Hbody.
  unfold Bs4.get_text. now rewrite Hstr.
Qed.

(** With neither a [main] nor a [body] element left after the removal, the
    text is made of all the strings of the document that lie outside the
    removed elements. *)
Theorem visible_text_of_document (soup : Bs4.node) :
  Bs4.unique_ids soup ->
  Bs4.find "main" (remove_non_content soup) = None ->
  Bs4.find "body" (remove_non_content soup) = None ->
  visible_text soup
  = clean_text
      (join nl (flat_map (Bs4.outside_strings non_content)
                  (Bs4.contents_of soup))).
Proof.
  intros Huniq Hmain Hbody.
  unfold visible_text, content_root. rewrite Hmain, Hbody.
  unfold Bs4.get_text. rewrite (remove_non_content_erases _ Huniq).
  destruct soup as [ty s | r nm cs]; [reflexivity |].
  unfold Bs4._all_strings, Bs4.descendants. cbn [Bs4.erase_below Bs4.contents_of].
  now rewrite <- erase_forest_strings.
Qed.

(** Two documents that are the same once their non-content elements are
    erased give the same text: what such an element holds, and whether it
    is there at all, never shows. *)
Theorem visible_text_ignores_non_content (soup1 soup2 : Bs4.node) :
  Bs4.unique_ids soup1 ->
  Bs4.unique_ids soup2 ->
  Bs4.erase_below non_content soup1 = Bs4.erase_below non_content soup2 ->
  visible_text soup1 = visible_text soup2.
Proof.
  intros H1 H2 E. unfold visible_text.
  now rewrite (remove_non_content_erases _ H1),
    (remove_non_content_erases _ H2), E.
Qed.

Lemma visible_text_of_body_witness :
  exists i cs0,
    In (Bs4.Tag i "body" cs0) (Bs4.descendants plain_page)
    /\ visible_text plain_page
       = clean_text
           (join nl (flat_map (Bs4.outside_strings non_content) cs0)).
Proof.
  apply (visible_text_of_body plain_page
           (Bs4.Tag 4 "body"
              [Bs4.Tag 5 "p" [Bs4.Str Bs4.NavigableString "Open daily"]])).
  - exact plain_page_unique.
  - reflexivity.
  - reflexivity.
Defined.

Lemma visible_text_of_document_witness :
  visible_text noscript_page
  = clean_text
      (join nl (flat_map (Bs4.outside_strings non_content)
                  (Bs4.contents_of noscript_page))).
Proof.
  apply (visible_text_of_document noscript_page).
  - exact noscript_page_unique.
  - reflexivity.
  - reflexivity.
Defined.

Lemma visible_text_ignores_non_content_witness :
  visible_text bakery_page = visible_text bakery_page_variant.
Proof.
  apply (visible_text_ignores_non_content bakery_page bakery_page_variant).
  - exact bakery_page_unique.
  - exact bakery_page_variant_unique.
  - reflexivity.
Defined.

(** ** More on the URL normalizer *)

Section NormalizerMore.

Variable ip_address : string -> result Urllib.ip_version.

Lemma strip_trimmed (s : string) :
  starts_with_space (strip s) = false /\ ends_with_space (strip s) = false.
Proof.
  unfold strip. split; [apply rstrip_starts, lstrip_starts | apply rstrip_ends].
Qed.

Lemma prepended_trimmed (s : string) :
  strip s <> EmptyString ->
  starts_with_space ("https://" ++ strip s) = false
  /\ ends_with_space ("https://" ++ strip s) = false.
Proof.
  intro H. split; [reflexivity |].
  rewrite ends_with_space_app by exact H. apply strip_trimmed.
Qed.

(** What [normalize_url] can return. *)
Lemma normalize_url_shape (raw res : string) :
  normalize_url ip_address raw = Ok res ->
  res = EmptyString
  \/ (starts_with_space res = false /\ ends_with_space res = false
      /\ has_scheme res = true
      /\ exists parsed,
           Urllib.urlparse ip_address res = Ok parsed
           /\ is_empty (Urllib.netloc parsed) = false).
Proof.
  unfold normalize_url. rewrite or_else_empty.
  destruct (is_empty (strip raw)) eqn:Ee; [intros [= <-]; now left |].
  apply is_empty_false in Ee.
  set (url := if negb (re_match_scheme (strip raw)) then _ else _).
  assert (Hurl : starts_with_space url = false /\ ends_with_space url = false
                 /\ has_scheme url = true).
  { subst url. destruct (re_match_scheme (strip raw)) eqn:E; cbn [negb].
    - rewrite <- re_match_scheme_spec. destruct (strip_trimmed raw). auto.
    - destruct (prepended_trimmed raw Ee). auto using has_scheme_prepended. }
  unfold bind.
  destruct (Urllib.urlparse ip_address url) as [parsed |] eqn:Ep;
    [| discriminate].
  destruct (is_empty (Urllib.netloc parsed)) eqn:En; intros [= <-];
    [now left | right].
  destruct Hurl as (Hs & He & Hsch). repeat split; auto.
  exists parsed. auto.
Qed.

(** A URL returned by [normalize_url] has no white space at either end. *)
Theorem normalize_url_trimmed (raw res : string) :
  normalize_url ip_address raw = Ok res ->
  starts_with_space res = false /\ ends_with_space res = false.
Proof.
  intro H. apply normalize_url_shape in H.
  destruct H as [-> | (Hs & He & _)]; auto.
Qed.

(** Normalizing a normalized URL returns it again. *)
Theorem normalize_url_idempotent (raw res : string) :
  normalize_url ip_address raw = Ok res ->
  normalize_url ip_address res = Ok res.
Proof.
  intro H. apply normalize_url_shape in H.
  destruct H as [-> | (Hs & He & Hsch & parsed & Hp & Hn)]; [reflexivity |].
  unfold normalize_url. rewrite or_else_empty, (strip_id _ Hs He).
  rewrite (has_scheme_nonempty _ Hsch), re_match_scheme_spec, Hsch.
  cbn [negb]. rewrite Hp. cbn [bind]. now rewrite Hn.
Qed.

End NormalizerMore.

Lemma normalize_url_trimmed_witness :
  starts_with_space "https://example.com/menu" = false
  /\ ends_with_space "https://example.com/menu" = false.
Proof.
  apply (normalize_url_trimmed loopback_only "  example.com/menu  ").
  reflexivity.
Defined.

Lemma normalize_url_idempotent_witness :
  normalize_url loopback_only "https://example.com/menu"
  = Ok "https://example.com/menu".
Proof.
  apply (normalize_url_idempotent loopback_only "  example.com/menu  ").
  reflexivity.
Defined.

Lemma normalize_url_returns_witness :
  exists res, normalize_url loopback_only "www.example.com/?q=a#top" = Ok res.
Proof.
  apply (normalize_url_returns loopback_only "www.example.com/?q=a#top").
  - reflexivity.
  - reflexivity.
Defined.

(** ** Inputs without a scheme *)

Section SchemelessFacts.
Import Urllib.
Variable ip_address : string -> result ip_version.

Lemma urlparse_netloc (url : string) (parsed : ParseResult) :
  urlparse ip_address url = Ok parsed ->
  exists sp, urlsplit ip_address url = Ok sp /\ netloc parsed = s_netloc sp.
Proof.
  unfold urlparse. destruct (urlsplit ip_address url) as [sp |]; [| discriminate].
  cbn [bind]. destruct (existsb _ _ && _); [destruct (_splitparams _) |];
    intros [= <-]; eauto.
Qed.

Lemma urlsplit_prepended (u : string) (sp : SplitResult) :
  urlsplit ip_address ("https://" ++ u) = Ok sp ->
  s_netloc sp
  = fst (_splitnetloc ("//" ++ remove LF (remove CR (remove TAB u))) 2).
Proof.
  unfold urlsplit.
  change (lstrip_with c0_control_or_space ("https://" ++ u))
    with ("https://" ++ u).
  change (remove LF (remove CR (remove TAB ("https://" ++ u))))
    with ("https://" ++ remove LF (remove CR (remove TAB u))).
  set (w := remove LF (remove CR (remove TAB u))).
  change (split_scheme ("https://" ++ w)) with ("https", "//" ++ w).
  cbv iota beta.
  change (String.eqb (take 2 ("//" ++ w)) "//") with true. cbv iota.
  destruct (_splitnetloc ("//" ++ w) 2) as [nloc rest]. cbn [fst].
  destruct (_ || _); [discriminate |].
  destruct (if contains "[" nloc && contains "]" nloc then _ else _)
    as [[] |]; [| discriminate].
  cbn [bind].
  destruct (contains "#" rest); [destruct (partition "#" rest) as [[a ?] b] |];
    match goal with
    | |- context [contains "?" ?x] =>
        destruct (contains "?" x);
        [destruct (partition "?" x) as [[a' ?] b'] |]
    end;
    (destruct (_checknetloc nloc) as [[] |]; [| discriminate]);
    cbn [bind]; now intros [= <-].
Qed.

(** With an empty host part, [urlsplit] returns. *)
Lemma urlsplit_prepended_no_host (u : string) :
  fst (_splitnetloc ("//" ++ remove LF (remove CR (remove TAB u))) 2)
  = EmptyString ->
  exists sp, urlsplit ip_address ("https://" ++ u) = Ok sp.
Proof.
  unfold urlsplit.
  change (lstrip_with c0_control_or_space ("https://" ++ u))
    with ("https://" ++ u).
  change (remove LF (remove CR (remove TAB ("https://" ++ u))))
    with ("https://" ++ remove LF (remove CR (remove TAB u))).
  set (w := remove LF (remove CR (remove TAB u))).
  change (split_scheme ("https://" ++ w)) with ("https", "//" ++ w).
  cbv iota beta.
  change (String.eqb (take 2 ("//" ++ w)) "//") with true. cbv iota.
  destruct (_splitnetloc ("//" ++ w) 2) as [nloc rest]. cbn [fst].
  intros ->. cbn [contains andb orb negb bind].
  destruct (contains "#" rest); [destruct (partition "#" rest) as [[a ?] b] |];
    match goal with
    | |- context [contains "?" ?x] =>
        destruct (contains "?" x);
        [destruct (partition "?" x) as [[a' ?] b'] |]
    end; cbn [bind _checknetloc is_empty orb]; eauto.
Qed.

Lemma opt_min_ge (lo d : nat) (w : option nat) :
  lo <= d -> (forall i, w = Some i -> lo <= i) -> lo <= opt_min d w.
Proof.
  intros Hd Hw. destruct w as [i |]; cbn [opt_min]; [| exact Hd].
  specialize (Hw i eq_refl). lia.
Qed.

Lemma find_from_ge (c : ascii) (start : nat) (s : string) (i : nat) :
  find_from c start s = Some i -> start <= i.
Proof.
  unfold find_from. destruct (find c (drop start s)); [| discriminate].
  intros [= <-]. lia.
Qed.

Lemma find_from_first (x c : ascii) (w : string) :
  find_from x 2 ("//" ++ String c w)
  = if Ascii.eqb x c then Some 2
    else match find x w with
         | Some i => Some (3 + i)
         | None => None
         end.
Proof.
  unfold find_from. change (drop 2 ("//" ++ String c w)) with (String c w).
  cbn [find]. destruct (Ascii.eqb x c); [reflexivity |].
  destruct (find x w); [f_equal; lia | reflexivity].
Qed.

Lemma opt_min_found (d i : nat) : opt_min d (Some i) <= i.
Proof. cbn. lia. Qed.

(** The host part of ["//" ++ w] is empty exactly when [w] begins with
    [/], [?] or [#]. *)
Lemma host_part_empty (c : ascii) (w : string) :
  is_empty (fst (_splitnetloc ("//" ++ String c w) 2)) = is_delimiter c.
Proof.
  unfold _splitnetloc. cbn [fst].
  change (drop 2 ("//" ++ String c w)) with (String c w).
  change (String.length ("//" ++ String c w)) with (3 + String.length w).
  rewrite !find_from_first.
  set (d0 := 3 + String.length w).
  set (f1 := if Ascii.eqb "/" c then _ else _).
  set (f2 := if Ascii.eqb "?" c then _ else _).
  set (f3 := if Ascii.eqb "#" c then _ else _).
  set (d3 := opt_min (opt_min (opt_min d0 f1) f2) f3).
  assert (Hlo : 2 <= d3).
  { subst d3 f1 f2 f3 d0. repeat apply opt_min_ge; try lia;
      intros i;
      match goal with |- context [Ascii.eqb ?x c] => destruct (Ascii.eqb x c) end;
      try match goal with |- context [find ?x w] => destruct (find x w) end;
      intro H; inversion H; lia. }
  unfold is_delimiter. rewrite !(Ascii.eqb_sym c).
  destruct (Ascii.eqb "/" c || Ascii.eqb "?" c || Ascii.eqb "#" c) eqn:E.
  - assert (Hhi : d3 <= 2).
    { subst d3.
      pose proof (opt_min_le (opt_min (opt_min d0 f1) f2) f3).
      pose proof (opt_min_le (opt_min d0 f1) f2).
      apply orb_true_iff in E. destruct E as [E | E];
        [apply orb_true_iff in E; destruct E as [E | E] |].
      + subst f1. rewrite E in *. cbv iota in *. pose proof (opt_min_found d0 2). lia.
      + subst f2. rewrite E in *. cbv iota in *.
        pose proof (opt_min_found (opt_min d0 f1) 2). lia.
      + subst f3. rewrite E in *. cbv iota in *.
        pose proof (opt_min_found (opt_min (opt_min d0 f1) f2) 2). lia. }
    replace (d3 - 2) with 0 by lia. reflexivity.
  - assert (Hhi : 3 <= d3).
    { apply orb_false_iff in E. destruct E as [E E3].
      apply orb_false_iff in E. destruct E as [E1 E2].
      subst d3 f1 f2 f3 d0. rewrite E1, E2, E3. cbv iota.
      repeat apply opt_min_ge; try lia;
        intros i;
        match goal with |- context [find ?x w] => destruct (find x w) end;
        intro H; inversion H; lia. }
    destruct (d3 - 2) as [|k] eqn:Ek; [lia | reflexivity].
Qed.

Lemma delimiter_not_space (c : ascii) :
  is_delimiter c = true -> isspace c = false.
Proof.
  unfold is_delimiter. intro H.
  apply orb_true_iff in H. destruct H as [H | H];
    [apply orb_true_iff in H; destruct H as [H | H] |];
    apply Ascii.eqb_eq in H; subst c; reflexivity.
Qed.

Lemma delimiter_no_scheme (c : ascii) (rest : string) :
  is_delimiter c = true -> re_match_scheme (String c rest) = false.
Proof.
  unfold is_delimiter. intro H.
  apply orb_true_iff in H. destruct H as [H | H];
    [apply orb_true_iff in H; destruct H as [H | H] |];
    apply Ascii.eqb_eq in H; subst c; reflexivity.
Qed.

Lemma first_char_kept (c : ascii) (rest : string) :
  isspace c = false ->
  remove LF (remove CR (remove TAB (String c rest)))
  = String c (remove LF (remove CR (remove TAB rest))).
Proof.
  intro H.
  assert (Ht : Ascii.eqb TAB c = false).
  { destruct (Ascii.eqb TAB c) eqn:E; [| reflexivity].
    apply Ascii.eqb_eq in E. subst c. discriminate H. }
  assert (Hr : Ascii.eqb CR c = false).
  { destruct (Ascii.eqb CR c) eqn:E; [| reflexivity].
    apply Ascii.eqb_eq in E. subst c. discriminate H. }
  cbn [remove]. rewrite Ht. cbn [remove]. rewrite Hr. cbn [remove].
  now rewrite (isspace_LF _ H).
Qed.

(** An input without a scheme that begins, once trimmed, with [/], [?] or
    [#] has no host: [normalize_url] answers with the empty string. *)
Theorem normalize_url_without_host (raw : string) (c : ascii) (rest : string) :
  strip raw = String c rest ->
  is_delimiter c = true ->
  normalize_url ip_address raw = Ok EmptyString.
Proof.
  intros Hu Hc. unfold normalize_url. rewrite or_else_empty, Hu.
  cbn [is_empty]. rewrite (delimiter_no_scheme _ _ Hc). cbn [negb].
  pose proof (first_char_kept c rest (delimiter_not_space _ Hc)) as Hw.
  pose proof (host_part_empty c (remove LF (remove CR (remove TAB rest))))
    as Hh.
  rewrite Hc, <- Hw in Hh. apply is_empty_true in Hh.
  destruct (urlsplit_prepended_no_host _ Hh) as [sp Hsp].
  pose proof (urlsplit_prepended _ _ Hsp) as Hn. rewrite Hh in Hn.
  unfold urlparse. rewrite Hsp. cbn [bind].
  destruct (existsb _ _ && _); [destruct (_splitparams _) |];
    cbn [bind netloc]; now rewrite Hn.
Qed.

(** For strings over code points below 256 (the strings of this model;
    above them [_checknetloc] can raise, see [nfkc_char]): an input without
    a scheme and without a bracket that begins, once trimmed, with anything
    but [/], [?] or [#] is returned trimmed with [https://] put in front. *)
Theorem normalize_url_prepends_https (raw : string) (c : ascii) (rest : string) :
  strip raw = String c rest ->
  has_scheme (strip raw) = false ->
  is_delimiter c = false ->
  contains "[" raw = false ->
  contains "]" raw = false ->
  normalize_url ip_address raw = Ok ("https://" ++ strip raw).
Proof.
  intros Hu Hs Hc Hl Hr. unfold normalize_url. rewrite or_else_empty.
  rewrite re_match_scheme_spec, Hs. cbn [negb].
  assert (Hsp : isspace c = false).
  { destruct (strip_trimmed raw) as [H _]. now rewrite Hu in H. }
  rewrite Hu at 1. cbn [is_empty].
  assert (Hb : contains "[" ("https://" ++ strip raw) = false
               /\ contains "]" ("https://" ++ strip raw) = false).
  { rewrite !contains_app. split; apply orb_false_iff; split;
      try reflexivity; now apply contains_strip. }
  destruct Hb as [Hbl Hbr].
  destruct (urlparse_returns ip_address _ Hbl Hbr) as [parsed Hp].
  rewrite Hp. cbn [bind].
  destruct (urlparse_netloc _ _ Hp) as (sp & Hsplit & ->).
  rewrite (urlsplit_prepended _ _ Hsplit), Hu, (first_char_kept _ _ Hsp).
  now rewrite host_part_empty, Hc.
Qed.

End SchemelessFacts.

Lemma normalize_url_without_host_witness :
  normalize_url loopback_only " /menu" = Ok EmptyString.
Proof.
  apply (normalize_url_without_host loopback_only " /menu" "/" "menu").
  - reflexivity.
  - reflexivity.
Defined.

Lemma normalize_url_prepends_https_witness :
  normalize_url loopback_only " Example.com/menu "
  = Ok ("https://" ++ strip " Example.com/menu ").
Proof.
  apply (normalize_url_prepends_https loopback_only " Example.com/menu "
           "E" "xample.com/menu").
  - reflexivity.
  - reflexivity.
  - reflexivity.
  - reflexivity.
  - reflexivity.
Defined.

(** ** More on the prompt *)

Section PromptFacts.

Lemma length_strip (s : string) : String.length (strip s) <= String.length s.
Proof.
  destruct (strip_infix s) as (a & b & Hs).
  rewrite Hs at 2. rewrite !length_app. lia.
Qed.

Lemma build_user_prompt_length (business_text promo_details : string) :
  String.length (build_user_prompt business_text promo_details)
  = 428 + String.length business_text + String.length promo_details.
Proof.
  unfold build_user_prompt. rewrite !length_app.
  cbn [String.length nl]. lia.
Qed.

Lemma composed_business_text_length (business_text : string) :
  String.length (composed_business_text business_text) <= max_chars + 18.
Proof.
  unfold composed_business_text.
  destruct (Nat.ltb_spec max_chars (String.length (strip business_text)))
    as [Hlong | Hshort].
  - rewrite length_app, length_take by lia.
    change (String.length truncation_marker) with 18. lia.
  - lia.
Qed.

(** The user message that [call_openai] composes is bounded: 428 characters
    of template, at most 7018 of business text, and the promotion details. *)
Theorem user_prompt_bounded (business_text promo_details : string) :
  String.length
    (build_user_prompt (composed_business_text business_text)
       (strip promo_details))
  <= 428 + (max_chars + 18) + String.length promo_details.
Proof.
  rewrite build_user_prompt_length.
  pose proof (composed_business_text_length business_text).
  pose proof (length_strip promo_details). lia.
Qed.

(** The template does not keep its two inputs apart: a business text that
    holds the promotion header passes for a shorter business text with a
    longer promotion. *)
Theorem build_user_prompt_ambiguous (x y z : string) :
  build_user_prompt (x ++ promotion_header ++ y) z
  = build_user_prompt x (y ++ promotion_header ++ z).
Proof.
  unfold build_user_prompt, promotion_header.
  rewrite !str_app_assoc. reflexivity.
Qed.

End PromptFacts.

(** ** More on the generation flow *)

Section RunFacts.

Variable ip_address : string -> result Urllib.ip_version.
Variable requests_get :
  string -> list (string * string) -> nat -> result Response.
Variable html_parser : string -> result Bs4.node.
Variable responses_create :
  string -> string -> list (string * string) -> result (option string).

(** The three ways a run ends once it has a business text. *)
Ltac after_business_text Hrun url business_text before :=
  let email := fresh "email" in
  let e := fresh "e" in
  let Ec := fresh "Ec" in
  let Ee := fresh "Ee" in
  match type of Hrun with
  | context [call_openai ?create ?key business_text ?promo] =>
      destruct (call_openai create key business_text promo)
        as [email | e] eqn:Ec;
      [destruct (is_empty email) eqn:Ee |];
      cbn [app] in Hrun; injection Hrun as <- <-;
      [apply is_empty_true in Ee; subst email;
       apply (run_no_email _ _ _ _ _ _ _ _ url business_text before)
      | apply is_empty_false in Ee;
        apply (run_email _ _ _ _ _ _ _ _ url business_text before email)
      | apply (run_service_failed _ _ _ _ _ _ _ _ url business_text before e)];
      auto
  end.

(** Every run of the block is one of the cases of [generate_run]. *)
Lemma run_is_generate_run
    (api_key website_url_raw promo_details manual_description : string)
    (out : flow unit) (tr : list event) :
  run ip_address requests_get html_parser responses_create true
      api_key website_url_raw promo_details manual_description = (out, tr) ->
  generate_run ip_address requests_get html_parser responses_create
    api_key website_url_raw promo_details manual_description out tr.
Proof.
  intro Hrun. unfold run, on_generate in Hrun.
  unfold and_then at 1 in Hrun.
  destruct (is_empty api_key) eqn:Ek.
  { unfold and_then, emit, st_stop in Hrun. injection Hrun as <- <-.
    apply run_missing_key. now apply is_empty_true. }
  apply is_empty_false in Ek.
  unfold pure at 1 in Hrun. unfold and_then at 1 in Hrun.
  unfold uncaught in Hrun.
  destruct (normalize_url ip_address website_url_raw) as [url | e] eqn:En.
  2: { injection Hrun as <- <-. now apply run_url_raises. }
  unfold and_then at 1 in Hrun.
  destruct (is_empty url) eqn:Eu.
  { unfold and_then, emit, st_stop in Hrun. injection Hrun as <- <-.
    apply is_empty_true in Eu. subst url. now apply run_url_invalid. }
  apply is_empty_false in Eu.
  unfold pure at 1 in Hrun. unfold and_then at 1 in Hrun.
  destruct (is_empty (strip promo_details)) eqn:Ep.
  { unfold and_then, emit, st_stop in Hrun. injection Hrun as <- <-.
    apply is_empty_true in Ep. now apply (run_no_promotion _ _ _ _ _ _ _ _ url). }
  apply is_empty_false in Ep.
  unfold pure at 1 in Hrun.
  unfold try_scrape, try_call_openai in Hrun.
  unfold and_then, emit, pure, st_stop in Hrun. cbn [app] in Hrun.
  destruct (scrape_website_text requests_get html_parser url 12)
    as [scraped | e] eqn:Es.
  - destruct (String.length scraped <? 300)%nat eqn:Hlen.
    + assert (Hins : scrape_insufficient requests_get html_parser url).
      { right. exists scraped. split; [exact Es | now apply Nat.ltb_lt]. }
      destruct (is_empty (strip manual_description)) eqn:Em.
      * injection Hrun as <- <-. apply is_empty_true in Em.
        now apply (run_no_description _ _ _ _ _ _ _ _ url).
      * apply is_empty_false in Em.
        after_business_text Hrun url (strip manual_description)
          [Scrape url; StWarning fallback_warning].
        all: now apply from_description.
    + apply Nat.ltb_ge in Hlen.
      after_business_text Hrun url scraped [Scrape url].
      all: now apply from_page.
  - assert (Hins : scrape_insufficient requests_get html_parser url).
    { left. now exists e. }
    destruct (is_empty (strip manual_description)) eqn:Em.
    + injection Hrun as <- <-. apply is_empty_true in Em.
      now apply (run_no_description _ _ _ _ _ _ _ _ url).
    + apply is_empty_false in Em.
      after_business_text Hrun url (strip manual_description)
        [Scrape url; StWarning fallback_warning].
      all: now apply from_description.
Qed.

Ltac in_cases H :=
  cbn [In app] in H;
  repeat (destruct H as [H | H]; [try discriminate H |]);
  try contradiction.

Ltac run_cases Hrun :=
  apply run_is_generate_run in Hrun;
  destruct Hrun as
    [Hk | ex Hk Hn | Hk Hn | u Hk Hn Hu Hp | u Hk Hn Hu Hp Hins Hm
     | u b before ex Hk Hn Hu Hp Hb Hc | u b before Hk Hn Hu Hp Hb Hc
     | u b before email Hk Hn Hu Hp Hb Hc He];
  try (destruct Hb as [scraped Hs Hlen | Hins Hm]).

(** The page is fetched only once the inputs are in order, and at the
    normalized URL: a scrape call in a run means a non-empty API key, a
    non-empty result of [normalize_url], which is the URL fetched, and
    non-empty promotion details. *)
Theorem scrape_needs_valid_inputs
    (api_key website_url_raw promo_details manual_description url : string)
    (out : flow unit) (tr : list event) :
  run ip_address requests_get html_parser responses_create true
      api_key website_url_raw promo_details manual_description = (out, tr) ->
  In (Scrape url) tr ->
  api_key <> EmptyString
  /\ normalize_url ip_address website_url_raw = Ok url
  /\ url <> EmptyString
  /\ strip promo_details <> EmptyString.
Proof.
  intros Hrun Hin. run_cases Hrun; in_cases Hin;
    injection Hin as <-; auto.
Qed.

(** The completion service is called only with the API key and promotion
    details of the run and with a non-empty business text: the scraped text
    when it has 300 characters or more, and otherwise the trimmed manual
    description. *)
Theorem completion_call_well_formed
    (api_key website_url_raw promo_details manual_description : string)
    (key business_text promo : string)
    (out : flow unit) (tr : list event) :
  run ip_address requests_get html_parser responses_create true
      api_key website_url_raw promo_details manual_description = (out, tr) ->
  In (Completion key business_text promo) tr ->
  key = api_key /\ promo = promo_details
  /\ business_text <> EmptyString
  /\ exists url,
       normalize_url ip_address website_url_raw = Ok url
       /\ ((scrape_website_text requests_get html_parser url 12
            = Ok business_text
            /\ 300 <= String.length business_text)
           \/ (business_text = strip manual_description
               /\ scrape_insufficient requests_get html_parser url)).
Proof.
  intros Hrun Hin. run_cases Hrun; in_cases Hin;
    injection Hin as <- <- <-; repeat split; auto;
    try (intros ->; cbn in Hlen; lia);
    exists u; split; auto.
Qed.

(** Only [normalize_url] can make a run end in an exception: it is the
    exception [normalize_url] raised, and nothing was shown or called
    before. What scraping or the completion call raise never escapes. *)
Theorem run_crashes_only_on_url
    (api_key website_url_raw promo_details manual_description : string)
    (e : exn) (tr : list event) :
  run ip_address requests_get html_parser responses_create true
      api_key website_url_raw promo_details manual_description
  = (Crashed e, tr) ->
  normalize_url ip_address website_url_raw = Raise e /\ tr = [].
Proof.
  intro Hrun. remember (Crashed e) as out eqn:Hout.
  run_cases Hrun; try discriminate Hout.
  injection Hout as <-. auto.
Qed.

(** A run that reaches its end has shown, and offers for download as
    [promotional_email.txt], exactly the non-empty text that [call_openai]
    returned. *)
Theorem finished_run_shows_email
    (api_key website_url_raw promo_details manual_description : string)
    (tr : list event) :
  run ip_address requests_get html_parser responses_create true
      api_key website_url_raw promo_details manual_description
  = (Next tt, tr) ->
  exists business_text email_text,
    call_openai responses_create api_key business_text promo_details
    = Ok email_text
    /\ email_text <> EmptyString
    /\ In (Completion api_key business_text promo_details) tr
    /\ In (StTextArea "Generated Email (copy this)" email_text 320) tr
    /\ In (StDownloadButton "Download as .txt" email_text
             "promotional_email.txt" "text/plain") tr.
Proof.
  intro Hrun. remember (Next tt) as out eqn:Hout.
  run_cases Hrun; try discriminate Hout;
    eexists; exists email; repeat split; eauto;
    cbn [In app]; auto 10.
Qed.

(** A run that halts has a message as the last thing it shows. *)
Theorem halted_run_shows_message
    (api_key website_url_raw promo_details manual_description : string)
    (tr : list event) :
  run ip_address requests_get html_parser responses_create true
      api_key website_url_raw promo_details manual_description
  = (Stopped, tr) ->
  exists before last_event,
    tr = (before ++ [last_event])%list /\ is_message last_event = true.
Proof.
  intro Hrun. remember Stopped as out eqn:Hout.
  run_cases Hrun; try discriminate Hout;
    try (eexists [], _; split; reflexivity);
    try (eexists [_], _; split; reflexivity);
    try (eexists [_; _], _; split; reflexivity);
    try (eexists [_; _; _], _; split; reflexivity).
Qed.

(** No retries: a run makes at most one scrape call and at most one call to
    the completion service. *)
Theorem run_calls_once
    (api_key website_url_raw promo_details manual_description : string) :
  List.length
    (filter is_scrape
       (snd (run ip_address requests_get html_parser responses_create true
               api_key website_url_raw promo_details manual_description)))
  <= 1
  /\ List.length
       (filter is_completion
          (snd (run ip_address requests_get html_parser responses_create true
                  api_key website_url_raw promo_details manual_description)))
     <= 1.
Proof.
  destruct (run _ _ _ _ _ _ _ _ _) as [out tr] eqn:Hrun. cbn [snd].
  run_cases Hrun; cbn; lia.
Qed.

(** When the completion call fails or returns an empty text, the run halts
    and shows no e-mail. *)
Theorem failed_completion_shows_no_email
    (api_key website_url_raw promo_details manual_description : string)
    (key business_text promo : string)
    (out : flow unit) (tr : list event) :
  run ip_address requests_get html_parser responses_create true
      api_key website_url_raw promo_details manual_description = (out, tr) ->
  In (Completion key business_text promo) tr ->
  (call_openai responses_create key business_text promo = Ok EmptyString
   \/ exists e,
        call_openai responses_create key business_text promo = Raise e) ->
  out = Stopped /\ existsb is_result tr = false.
Proof.
  intros Hrun Hin Hfail. run_cases Hrun; in_cases Hin;
    injection Hin as <- <- <-; try (split; reflexivity);
    exfalso; destruct Hfail as [Hf | [e' Hf]]; congruence.
Qed.

(** When scraping returns 300 characters or more, the manual description
    plays no part in the run. *)
Theorem description_unused_when_scraped
    (api_key website_url_raw promo_details url scraped : string)
    (description1 description2 : string) :
  normalize_url ip_address website_url_raw = Ok url ->
  scrape_website_text requests_get html_parser url 12 = Ok scraped ->
  300 <= String.length scraped ->
  run ip_address requests_get html_parser responses_create true
      api_key website_url_raw promo_details description1
  = run ip_address requests_get html_parser responses_create true
      api_key website_url_raw promo_details description2.
Proof.
  intros Hn Hs Hlen. apply Nat.ltb_ge in Hlen.
  cbv beta iota
    delta [run on_generate and_then uncaught try_scrape try_call_openai
           emit pure st_stop].
  destruct (is_empty api_key); [reflexivity |].
  rewrite Hn. cbv beta iota.
  destruct (is_empty url); [reflexivity |].
  destruct (is_empty (strip promo_details)); [reflexivity |].
  rewrite Hs. cbv beta iota. rewrite Hlen. reflexivity.
Qed.

End RunFacts.

Lemma scrape_needs_valid_inputs_witness :
  "sk-test" <> EmptyString
  /\ normalize_url loopback_only "example.com" = Ok "https://example.com"
  /\ "https://example.com" <> EmptyString
  /\ strip "20% off" <> EmptyString.
Proof.
  apply (scrape_needs_valid_inputs loopback_only (serve 200 "page")
           (parsed_as long_page) canned_service
           "sk-test" "example.com" "20% off" EmptyString
           "https://example.com" (fst scraped_run) (snd scraped_run)).
  - reflexivity.
  - left. reflexivity.
Defined.

Lemma completion_call_well_formed_witness :
  "sk-test" = "sk-test" /\ "20% off" = "20% off"
  /\ "A bakery." <> EmptyString
  /\ exists url,
       normalize_url loopback_only "example.com" = Ok url
       /\ ((scrape_website_text unreachable (parsed_as long_page) url 12
            = Ok "A bakery."
            /\ 300 <= String.length "A bakery.")
           \/ ("A bakery." = strip "A bakery."
               /\ scrape_insufficient unreachable (parsed_as long_page) url)).
Proof.
  apply (completion_call_well_formed loopback_only unreachable
           (parsed_as long_page) failing_service
           "sk-test" "example.com" "20% off" "A bakery."
           "sk-test" "A bakery." "20% off"
           (fst failed_service_run) (snd failed_service_run)).
  - reflexivity.
  - right. right. left. reflexivity.
Defined.

Lemma run_crashes_only_on_url_witness :
  normalize_url loopback_only "[" = Raise ValueError
  /\ snd bracket_run = [].
Proof.
  apply (run_crashes_only_on_url loopback_only unreachable
           (parsed_as long_page) canned_service
           "sk-test" "[" "20% off" "A bakery." ValueError (snd bracket_run)).
  reflexivity.
Defined.

Lemma finished_run_shows_email_witness :
  exists business_text email_text,
    call_openai canned_service "sk-test" business_text "20% off"
    = Ok email_text
    /\ email_text <> EmptyString
    /\ In (Completion "sk-test" business_text "20% off") (snd scraped_run)
    /\ In (StTextArea "Generated Email (copy this)" email_text 320)
          (snd scraped_run)
    /\ In (StDownloadButton "Download as .txt" email_text
             "promotional_email.txt" "text/plain") (snd scraped_run).
Proof.
  apply (finished_run_shows_email loopback_only (serve 200 "page")
           (parsed_as long_page) canned_service
           "sk-test" "example.com" "20% off" EmptyString (snd scraped_run)).
  reflexivity.
Defined.

Lemma halted_run_shows_message_witness :
  exists before last_event,
    snd failed_service_run = (before ++ [last_event])%list
    /\ is_message last_event = true.
Proof.
  apply (halted_run_shows_message loopback_only unreachable
           (parsed_as long_page) failing_service
           "sk-test" "example.com" "20% off" "A bakery."
           (snd failed_service_run)).
  reflexivity.
Defined.

Lemma failed_completion_shows_no_email_witness :
  fst failed_service_run = Stopped
  /\ existsb is_result (snd failed_service_run) = false.
Proof.
  apply (failed_completion_shows_no_email loopback_only unreachable
           (parsed_as long_page) failing_service
           "sk-test" "example.com" "20% off" "A bakery."
           "sk-test" "A bakery." "20% off"
           (fst failed_service_run) (snd failed_service_run)).
  - reflexivity.
  - right. right. left. reflexivity.
  - right. exists OpenAIError. reflexivity.
Defined.

Lemma description_unused_when_scraped_witness :
  run loopback_only (serve 200 "page") (parsed_as long_page) canned_service
      true "sk-test" "example.com" "20% off" EmptyString
  = run loopback_only (serve 200 "page") (parsed_as long_page) canned_service
      true "sk-test" "example.com" "20% off" "A bakery.".
Proof.
  apply (description_unused_when_scraped loopback_only (serve 200 "page")
           (parsed_as long_page) canned_service
           "sk-test" "example.com" "20% off" "https://example.com"
           (Nat.iter 60 (append "bread") EmptyString)).
  - reflexivity.
  - reflexivity.
  - vm_compute. repeat constructor.
Defined.

(** ** More on the completion client *)

Section ClientMore.

Variable responses_create :
  string -> string -> list (string * string) -> result (option string).

(** What [call_openai] returns has no white space at either end. *)
Theorem call_openai_trimmed
    (api_key business_text promo_details email_text : string) :
  call_openai responses_create api_key business_text promo_details
  = Ok email_text ->
  starts_with_space email_text = false /\ ends_with_space email_text = false.
Proof.
  rewrite call_openai_request.
  destruct (responses_create _ _ _) as [output_text |]; [| discriminate].
  cbn [bind]. intros [= <-]. apply strip_trimmed.
Qed.

End ClientMore.

Lemma call_openai_trimmed_witness :
  starts_with_space "Subject: Fresh bread" = false
  /\ ends_with_space "Subject: Fresh bread" = false.
Proof.
  apply (call_openai_trimmed canned_service "sk-test" "A bakery." "20% off").
  reflexivity.
Defined.

(** ** What the completion client sends and returns *)

Section TrimFacts.

Lemma lstrip_removes (p : ascii -> bool) (s : string) :
  exists a, s = a ++ lstrip_with p s /\ forallb p a = true.
Proof.
  induction s as [|c s (a & IH & Ha)]; cbn [lstrip_with].
  - now exists EmptyString.
  - destruct (p c) eqn:E.
    + exists (String c a). cbn [append forallb]. rewrite <- IH, E, Ha. auto.
    + now exists EmptyString.
Qed.

Lemma rstrip_removes (p : ascii -> bool) (s : string) :
  exists b, s = rstrip_with p s ++ b /\ forallb p b = true.
Proof.
  induction s as [|c s (b & IH & Hb)]; cbn [rstrip_with].
  - now exists EmptyString.
  - destruct (rstrip_with p s) as [|d r] eqn:E.
    + cbn [append] in IH. subst b. destruct (p c) eqn:Ec.
      * exists (String c s). cbn [append forallb]. rewrite Ec, Hb. auto.
      * exists s. auto.
    + exists b. cbn [append] in *. rewrite <- IH. auto.
Qed.

(** [strip] meets its description. *)
Lemma strip_trimmed_of (s : string) : trimmed_of s (strip s).
Proof.
  destruct (strip_trimmed s) as [Hs He]. split; [| auto].
  unfold strip.
  destruct (lstrip_removes isspace s) as (a & Ha & Hsa).
  destruct (rstrip_removes isspace (lstrip_with isspace s)) as (b & Hb & Hsb).
  exists a, b. rewrite <- Hb. auto.
Qed.

Lemma lstrip_app_spaces (a x : string) :
  forallb isspace a = true ->
  lstrip_with isspace (a ++ x) = lstrip_with isspace x.
Proof.
  induction a as [|c a IH]; [reflexivity |].
  cbn [forallb append lstrip_with]. intro H.
  apply andb_true_iff in H. destruct H as [-> H]. now apply IH.
Qed.

Lemma lstrip_spaces (b : string) :
  forallb isspace b = true -> lstrip_with isspace b = EmptyString.
Proof.
  intro H. rewrite <- (str_app_nil_r b), lstrip_app_spaces by exact H.
  reflexivity.
Qed.

Lemma rstrip_spaces (b : string) :
  forallb isspace b = true -> rstrip_with isspace b = EmptyString.
Proof.
  induction b as [|c b IH]; [reflexivity |].
  cbn [forallb rstrip_with]. intro H.
  apply andb_true_iff in H. destruct H as [Hc H]. now rewrite (IH H), Hc.
Qed.

Lemma rstrip_app_spaces (t b : string) :
  forallb isspace b = true ->
  ends_with_space t = false ->
  rstrip_with isspace (t ++ b) = t.
Proof.
  intros Hb. induction t as [|c t IH]; intro He.
  - now apply rstrip_spaces.
  - cbn [append rstrip_with]. destruct t as [|d t'].
    + cbn [append]. rewrite (rstrip_spaces _ Hb).
      cbn [ends_with_space] in He. now rewrite He.
    + rewrite (IH He). reflexivity.
Qed.

(** The description leaves no choice: the trimmed text is [strip]'s. *)
Lemma trimmed_of_strip (s t : string) : trimmed_of s t -> t = strip s.
Proof.
  intros ((a & b & -> & Ha & Hb) & Hs & He). unfold strip.
  rewrite (lstrip_app_spaces _ _ Ha).
  destruct t as [|c t].
  - cbn [append]. now rewrite (lstrip_spaces _ Hb).
  - cbn [starts_with_space] in Hs. cbn [append lstrip_with]. rewrite Hs.
    change (String c (t ++ b)) with (String c t ++ b).
    now rewrite (rstrip_app_spaces _ _ Hb He).
Qed.

Lemma strip_spaces (s : string) :
  forallb isspace s = true -> strip s = EmptyString.
Proof.
  intro H. unfold strip. rewrite (lstrip_spaces _ H). reflexivity.
Qed.

End TrimFacts.

(** C4. Whatever the completion service, [call_openai] sends it one
    request, whose user message is the prompt composed from the promotion
    details without their leading and trailing white space, whole, and from
    the business text without its leading and trailing white space: as it
    is when it has at most 7000 characters, and otherwise cut to its first
    7000 characters, exactly, with a truncation marker appended. *)
Theorem call_openai_truncates (api_key business_text promo_details : string) :
  exists business promo composed post,
    trimmed_of business_text business
    /\ trimmed_of promo_details promo
    /\ ((String.length business <= 7000 /\ composed = business)
        \/ (7000 < String.length business
            /\ exists kept rest,
                 business = kept ++ rest
                 /\ String.length kept = 7000
                 /\ composed = kept ++ String "010" "...(truncated)..."))
    /\ forall responses_create,
         call_openai responses_create api_key business_text promo_details
         = (resp <- responses_create api_key "gpt-4o"
                      [("system", SYSTEM_PROMPT);
                       ("user", build_user_prompt composed promo)] ;;
            post resp).
Proof.
  exists (strip business_text), (strip promo_details),
    (composed_business_text business_text),
    (fun resp => Ok (strip (text_or_empty resp))).
  split; [apply strip_trimmed_of |]. split; [apply strip_trimmed_of |].
  split; [| intro responses_create; apply call_openai_request].
  unfold composed_business_text. fold max_chars.
  destruct (Nat.ltb_spec max_chars (String.length (strip business_text)))
    as [Hlong | Hshort].
  - right. split; [exact Hlong |].
    exists (take max_chars (strip business_text)),
      (drop max_chars (strip business_text)).
    repeat split.
    + now rewrite take_drop.
    + apply length_take. lia.
  - left. split; [exact Hshort | reflexivity].
Qed.

Section ClientReturns.

Variable responses_create :
  string -> string -> list (string * string) -> result (option string).

(** C8. When the call to the completion service succeeds, [call_openai]
    returns and raises nothing: given an output text, it returns that text
    without its leading and trailing white space, which is the empty string
    when the text is white space only; given no output text, it returns the
    empty string. *)
Theorem call_openai_success (api_key business_text promo_details : string)
    (output_text : option string) :
  responses_create api_key "gpt-4o"
    [("system", SYSTEM_PROMPT);
     ("user",
      build_user_prompt (composed_business_text business_text)
        (strip promo_details))]
  = Ok output_text ->
  exists email_text,
    call_openai responses_create api_key business_text promo_details
    = Ok email_text
    /\ match output_text with
       | Some text =>
           trimmed_of text email_text
           /\ (forallb isspace text = true -> email_text = EmptyString)
       | None => email_text = EmptyString
       end.
Proof.
  intro H. rewrite call_openai_request. unfold request_input. rewrite H.
  cbn [bind]. eexists. split; [reflexivity |].
  destruct output_text as [text |]; [| reflexivity].
  cbn [text_or_empty]. split; [apply strip_trimmed_of | apply strip_spaces].
Qed.

End ClientReturns.

Lemma call_openai_success_witness :
  exists email_text,
    call_openai padded_service "sk-test" "A bakery." "20% off" = Ok email_text
    /\ trimmed_of ("  Subject: Fresh bread " ++ nl) email_text
    /\ (forallb isspace ("  Subject: Fresh bread " ++ nl) = true ->
        email_text = EmptyString).
Proof.
  apply (call_openai_success padded_service "sk-test" "A bakery." "20% off"
           (Some ("  Subject: Fresh bread " ++ nl))).
  reflexivity.
Defined.

(** The two ends of C8 on concrete answers: a padded answer comes back
    trimmed, no answer comes back as the empty string. *)
Example call_openai_answers :
  call_openai padded_service "sk-test" "A bakery." "20% off"
  = Ok "Subject: Fresh bread"
  /\ call_openai silent_service "sk-test" "A bakery." "20% off"
     = Ok EmptyString.
Proof. split; reflexivity. Qed.
